(** * Drag Race Manager: the tournament core of [app.py], embedded and verified

    The Python classes [Driver], [Race] and [TournamentManager] and the two
    handlers that edit the driver table ([update_driver], [delete_driver]) are
    translated to Rocq functions over explicit state.

    Modelling choices, all taken from the code:
    - a Python [dict] keeps insertion order, and [get_rankings] depends on it
      (the sort is stable), so a dict is an association list with the three
      operations the code uses: lookup, item assignment and [del];
    - Python integers are unbounded: [Z];
    - [Driver.win_ratio] is the quotient of two integers; it is kept as the
      exact rational [Q];
    - a method that can raise returns an [outcome]: the state it leaves behind
      together with either its return value or the exception;
    - [datetime.now().isoformat()] is an argument ([now], or a [clock] when it
      is read once per element). *)

From Stdlib Require Import List String Ascii ZArith QArith Bool Lia Lqa.
From Stdlib Require Import Permutation Sorted DecimalString.
Import ListNotations.

Open Scope string_scope.
Open Scope list_scope.
Open Scope Z_scope.

(** ** Python runtime pieces used by the code *)

Inductive exn : Type :=
| KeyError (key : string)
| TypeError (what : string).

(** What a call leaves behind: the (possibly mutated) state, and either the
    returned value or the exception that escaped. *)
Inductive outcome (S A : Type) : Type :=
| Returned (s : S) (a : A)
| Raised (s : S) (e : exn).
Arguments Returned {S A} s a.
Arguments Raised {S A} s e.

Definition outcome_state {S A} (o : outcome S A) : S :=
  match o with Returned s _ => s | Raised s _ => s end.

Definition raises {S A} (o : outcome S A) : bool :=
  match o with Returned _ _ => false | Raised _ _ => true end.

(** Expressions that can raise before any state is touched. *)
Definition result (A : Type) : Type := (exn + A)%type.

Definition bind {A B} (r : result A) (k : A -> result B) : result B :=
  match r with inl e => inl e | inr a => k a end.

Notation "x <- c ;; k" := (bind c (fun x => k))
  (at level 61, c at next level, right associativity).

(** [data[key]] on a parsed JSON object whose key may be absent. *)
Definition subscript {A} (key : string) (field : option A) : result A :=
  match field with Some a => inr a | None => inl (KeyError key) end.

(** [data.get(key, default)]. *)
Definition get_default {A} (field : option A) (default : A) : A :=
  match field with Some a => a | None => default end.

(** [str(n)] for an integer. *)
Definition str (n : Z) : string := NilZero.string_of_int (Z.to_int n).

(** [s.strip()]: the characters Python's [str.isspace] accepts below 256. *)
Definition isspace (c : ascii) : bool :=
  let n := nat_of_ascii c in
  ((9 <=? n) && (n <=? 13) || (28 <=? n) && (n <=? 32)
   || (n =? 133) || (n =? 160))%nat.

Fixpoint lstrip_chars (l : list ascii) : list ascii :=
  match l with
  | c :: r => if isspace c then lstrip_chars r else l
  | [] => []
  end.

Definition strip (s : string) : string :=
  string_of_list_ascii
    (rev (lstrip_chars (rev (lstrip_chars (list_ascii_of_string s))))).

(** [list.sort(key=...)]: Python's sort is stable and compares the keys with
    [<] only.  A stable sort by a key is determined by these two facts, so it
    is embedded as the insertion sort that puts an element in front of the
    first one that is not smaller. *)
Section ListSort.
Context {A K : Type} (key : A -> K) (lt : K -> K -> bool).

Fixpoint insert_sorted (x : A) (l : list A) : list A :=
  match l with
  | [] => [x]
  | y :: r =>
      if lt (key y) (key x) then y :: insert_sorted x r else x :: y :: r
  end.

Definition list_sort (l : list A) : list A := fold_right insert_sorted [] l.
End ListSort.

(** [enumerate(l, start)] *)
Fixpoint enumerate {A} (start : Z) (l : list A) : list (Z * A) :=
  match l with
  | [] => []
  | x :: r => (start, x) :: enumerate (start + 1) r
  end.

(** ** Insertion-ordered dictionaries with string keys *)

Module PyDict.

Definition t (V : Type) : Type := list (string * V).

Definition empty {V} : t V := [].

Definition keys {V} (d : t V) : list string := map fst d.
Definition values {V} (d : t V) : list V := map snd d.

(** [d.get(k)] / [d[k]] *)
Fixpoint get {V} (k : string) (d : t V) : option V :=
  match d with
  | [] => None
  | (k', v) :: r => if String.eqb k k' then Some v else get k r
  end.

(** [k in d] *)
Definition contains {V} (k : string) (d : t V) : bool :=
  match get k d with Some _ => true | None => false end.

(** [d[k] = v]: an existing key keeps its place, a new key goes last. *)
Fixpoint set {V} (k : string) (v : V) (d : t V) : t V :=
  match d with
  | [] => [(k, v)]
  | (k', v') :: r =>
      if String.eqb k k' then (k', v) :: r else (k', v') :: set k v r
  end.

(** [del d[k]] on a key that is present (absent keys are left to the
    caller, which checks membership first). *)
Fixpoint del {V} (k : string) (d : t V) : t V :=
  match d with
  | [] => []
  | (k', v') :: r => if String.eqb k k' then r else (k', v') :: del k r
  end.

(** [{k: f(v) for k, v in d.items()}] *)
Definition comprehension {V W} (f : V -> W) (d : t V) : t W :=
  fold_left (fun acc kv => set (fst kv) (f (snd kv)) acc) d [].

(** The same comprehension when [f] can raise: the first exception escapes
    and no dictionary is built. *)
Fixpoint comprehension_r {V W} (f : V -> result W) (d : t V) (acc : t W)
  : result (t W) :=
  match d with
  | [] => inr acc
  | (k, v) :: r => w <- f v ;; comprehension_r f r (set k w acc)
  end.

End PyDict.

(** ** class DriverStatus *)

Module DriverStatus.
Definition ACTIVE : string := "ACTIVE".
Definition ELIMINATED : string := "ELIMINATED".
Definition INACTIVE : string := "INACTIVE".
End DriverStatus.

(** ** class Driver *)

Module Driver.

Record t : Type := mk {
  name : string;
  division : string;
  wins : Z;
  losses : Z;
  races : list Z;
  status : string
}.

(** [__init__]: [self.races = races or []]. *)
Definition init (name division : string) (wins losses : Z)
    (races : list Z) (status : string) : t :=
  mk name division wins losses
     (match races with [] => [] | _ :: _ => races end) status.

(** [Driver(name, division)] *)
Definition new (name division : string) : t :=
  init name division 0 0 [] DriverStatus.ACTIVE.

Definition total_races (d : t) : Z := wins d + losses d.

Definition win_ratio (d : t) : Q :=
  if 0 <? total_races d
  then Qmake (wins d) (Z.to_pos (total_races d))
  else 0%Q.

Definition is_eliminated (d : t) : bool := 3 <=? losses d.

Definition update_status (d : t) : t :=
  if is_eliminated d
  then mk (name d) (division d) (wins d) (losses d) (races d)
          DriverStatus.ELIMINATED
  else mk (name d) (division d) (wins d) (losses d) (races d)
          DriverStatus.ACTIVE.

Definition add_race_result (d : t) (race_number : Z) (won : bool) : t :=
  let appended := races d ++ [race_number] in
  let counted :=
    if won
    then mk (name d) (division d) (wins d + 1) (losses d) appended (status d)
    else mk (name d) (division d) (wins d) (losses d + 1) appended (status d)
  in
  update_status counted.

(** [driver.name = n] and [driver.division = dv] *)
Definition set_name (d : t) (n : string) : t :=
  mk n (division d) (wins d) (losses d) (races d) (status d).

Definition set_division (d : t) (dv : string) : t :=
  mk (name d) dv (wins d) (losses d) (races d) (status d).

(** The serialized form: a JSON object, any key of which may be missing
    when it comes from outside. *)
Record data : Type := mk_data {
  d_name : option string;
  d_division : option string;
  d_wins : option Z;
  d_losses : option Z;
  d_races : option (list Z);
  d_status : option string
}.

Definition to_dict (d : t) : data :=
  mk_data (Some (name d)) (Some (division d)) (Some (wins d))
          (Some (losses d)) (Some (races d)) (Some (status d)).

Definition from_dict (x : data) : result t :=
  n <- subscript "name" (d_name x) ;;
  dv <- subscript "division" (d_division x) ;;
  inr (init n dv
            (get_default (d_wins x) 0)
            (get_default (d_losses x) 0)
            (get_default (d_races x) [])
            (get_default (d_status x) DriverStatus.ACTIVE)).

End Driver.

(** ** class Race *)

Module Race.

Record t : Type := mk {
  race_number : Z;
  driver1 : string;
  driver2 : string;
  winner : string;
  division : string;
  timestamp : string;
  driver3 : option string;
  race_type : string
}.

(** Truth value of an optional string: [None] and [""] are false. *)
Definition truthy (o : option string) : bool :=
  match o with
  | Some s => negb (String.eqb s "")
  | None => false
  end.

(** [__init__]: [self.timestamp = timestamp or datetime.now().isoformat()];
    [now] is the clock reading. *)
Definition init (now : string) (race_number : Z)
    (driver1 driver2 winner division : string)
    (timestamp : option string) (driver3 : option string)
    (race_type : string) : t :=
  mk race_number driver1 driver2 winner division
     (match timestamp with
      | Some ts => if truthy timestamp then ts else now
      | None => now
      end)
     driver3 race_type.

(** [", ".join(names)] *)
Fixpoint join_comma (names : list string) : string :=
  match names with
  | [] => ""
  | [n] => n
  | n :: rest => (n ++ ", " ++ join_comma rest)%string
  end.

Definition loser (r : t) : string :=
  if String.eqb (race_type r) "championship" && truthy (driver3 r)
  then
    let drivers :=
      [driver1 r; driver2 r] ++
      match driver3 r with Some d3 => [d3] | None => [] end in
    join_comma (filter (fun d => negb (String.eqb d (winner r))) drivers)
  else if String.eqb (winner r) (driver1 r) then driver2 r else driver1 r.

(** The serialized form.  [d_timestamp] and [d_driver3] are [None] for a
    missing key and for JSON [null] alike; [d_unexpected] lists the keys
    that are no parameter of [__init__]. *)
Record data : Type := mk_data {
  d_race_number : option Z;
  d_driver1 : option string;
  d_driver2 : option string;
  d_winner : option string;
  d_division : option string;
  d_timestamp : option string;
  d_driver3 : option string;
  d_race_type : option string;
  d_unexpected : list string
}.

Definition to_dict (r : t) : data :=
  mk_data (Some (race_number r)) (Some (driver1 r)) (Some (driver2 r))
          (Some (winner r)) (Some (division r)) (Some (timestamp r))
          (driver3 r) (Some (race_type r)) [].

Definition required {A} (param : string) (field : option A) : result A :=
  match field with
  | Some a => inr a
  | None => inl (TypeError ("missing required argument: " ++ param)%string)
  end.

(** [Race] called with the entries of [race_data] as keyword arguments. *)
Definition from_kwargs (now : string) (x : data) : result t :=
  match d_unexpected x with
  | k :: _ => inl (TypeError ("unexpected keyword argument: " ++ k)%string)
  | [] =>
      n <- required "race_number" (d_race_number x) ;;
      a <- required "driver1" (d_driver1 x) ;;
      b <- required "driver2" (d_driver2 x) ;;
      w <- required "winner" (d_winner x) ;;
      dv <- required "division" (d_division x) ;;
      inr (init now n a b w dv (d_timestamp x) (d_driver3 x)
                (get_default (d_race_type x) "regular"))
  end.

End Race.

(** ** class TournamentManager *)

Module TournamentManager.

Record t : Type := mk {
  drivers : PyDict.t Driver.t;
  races : list Race.t;
  race_counter : Z;
  divisions : list string
}.

Definition init : t :=
  mk PyDict.empty [] 0
     ["2X4_4CYL"; "4X4_4CYL"; "4X4_6CYL_PETROL";
      "4X4_6CYL_DIESEL"; "4X4_V8_PETROL"; "4X4_V8_DIESEL";
      "DAMES"; "OPEN"].

Definition with_drivers (st : t) (ds : PyDict.t Driver.t) : t :=
  mk ds (races st) (race_counter st) (divisions st).

(** [x in list] for strings *)
Definition mem (x : string) (l : list string) : bool :=
  existsb (String.eqb x) l.

Definition add_driver (st : t) (name division : string)
  : t * (bool * string) :=
  let name := strip name in
  if String.eqb name "" || PyDict.contains name (drivers st)
  then (st, (false, "Driver '" ++ name ++ "' already exists or is empty"))%string
  else if negb (mem division (divisions st))
  then (st, (false, "Invalid division: " ++ division))%string
  else (with_drivers st (PyDict.set name (Driver.new name division) (drivers st)),
        (true, "Successfully added " ++ name ++ " to " ++ division))%string.

(** [racing_drivers]: the first two names, and the third when it is truthy. *)
Definition racing_drivers (driver1_name driver2_name : string)
    (driver3_name : option string) : list string :=
  [driver1_name; driver2_name] ++
  match driver3_name with
  | Some n => if Race.truthy driver3_name then [n] else []
  | None => []
  end.

(** [self.drivers[name].add_race_result(race_number, won)]: the Driver
    object stored under [name] is mutated in place; the subscript raises
    [KeyError] when the key is absent. *)
Definition apply_result (st : t) (name : string) (race_number : Z)
    (won : bool) : outcome t unit :=
  match PyDict.get name (drivers st) with
  | None => Raised st (KeyError name)
  | Some d =>
      Returned
        (with_drivers st
           (PyDict.set name (Driver.add_race_result d race_number won)
                       (drivers st)))
        tt
  end.

(** The loop [for driver_name in racing_drivers: if driver_name !=
    winner_name: ...]. *)
Fixpoint record_losers (st : t) (winner_name : string)
    (names : list string) : outcome t unit :=
  match names with
  | [] => Returned st tt
  | n :: rest =>
      if String.eqb n winner_name
      then record_losers st winner_name rest
      else match apply_result st n (race_counter st) false with
           | Returned st' _ => record_losers st' winner_name rest
           | Raised st' e => Raised st' e
           end
  end.

Definition record_race (now : string) (st : t)
    (driver1_name driver2_name winner_name : string)
    (driver3_name : option string) (race_type : string)
  : outcome t (bool * string) :=
  if negb (PyDict.contains driver1_name (drivers st))
     || negb (PyDict.contains driver2_name (drivers st))
  then Returned st (false, "Driver not found")
  else
    let racing := racing_drivers driver1_name driver2_name driver3_name in
    if negb (mem winner_name racing)
    then Returned st (false, "Winner must be one of the racing drivers")
    else
      match PyDict.get driver1_name (drivers st),
            PyDict.get driver2_name (drivers st) with
      | None, _ => Raised st (KeyError driver1_name)
      | _, None => Raised st (KeyError driver2_name)
      | Some driver1, Some driver2 =>
          if negb (String.eqb (Driver.division driver1)
                              (Driver.division driver2))
          then Returned st (false, "Drivers must be in the same division")
          else if Driver.is_eliminated driver1
                  || Driver.is_eliminated driver2
          then Returned st (false, "Eliminated drivers cannot race")
          else
            let counter := race_counter st + 1 in
            let race :=
              Race.init now counter driver1_name driver2_name winner_name
                        (Driver.division driver1) None driver3_name
                        race_type in
            let st1 := mk (drivers st) (races st ++ [race]) counter
                          (divisions st) in
            match apply_result st1 winner_name counter true with
            | Raised st2 e => Raised st2 e
            | Returned st2 _ =>
                match record_losers st2 winner_name racing with
                | Raised st3 e => Raised st3 e
                | Returned st3 _ =>
                    Returned st3
                      (true, "Race " ++ str (race_counter st3) ++ ": "
                             ++ winner_name ++ " wins!")%string
                end
            end
      end.

(** *** Rankings *)

(** The tuple the sort key lambda builds:
    [(d.status == ELIMINATED, -d.wins, -d.win_ratio, d.losses)]. *)
Definition sort_key (d : Driver.t) : bool * Z * Q * Z :=
  (String.eqb (Driver.status d) DriverStatus.ELIMINATED,
   - Driver.wins d,
   (- Driver.win_ratio d)%Q,
   Driver.losses d).

(** [<] on such tuples: the first component that differs decides;
    [False < True]. *)
Definition tuple_lt (a b : bool * Z * Q * Z) : bool :=
  let '(e1, w1, r1, l1) := a in
  let '(e2, w2, r2, l2) := b in
  if negb (Bool.eqb e1 e2) then negb e1 && e2
  else if negb (w1 =? w2) then w1 <? w2
  else if negb (Qeq_bool r1 r2) then negb (Qle_bool r2 r1)
  else l1 <? l2.

Record ranking : Type := mk_ranking {
  position : Z;
  name : string;
  division : string;
  wins : Z;
  losses : Z;
  total_races : Z;
  win_ratio : Q;
  status : string
}.

Definition ranking_of (entry : Z * Driver.t) : ranking :=
  let '(position, driver) := entry in
  mk_ranking position (Driver.name driver) (Driver.division driver)
             (Driver.wins driver) (Driver.losses driver)
             (Driver.total_races driver) (Driver.win_ratio driver)
             (Driver.status driver).

(** [division is None or driver.division == division] *)
Definition in_division (division : option string) (driver : Driver.t)
  : bool :=
  match division with
  | None => true
  | Some dv => String.eqb (Driver.division driver) dv
  end.

Definition drivers_to_rank (st : t) (division : option string)
  : list Driver.t :=
  list_sort sort_key tuple_lt
    (filter (in_division division) (PyDict.values (drivers st))).

Definition get_rankings (st : t) (division : option string)
  : list ranking :=
  map ranking_of (enumerate 1 (drivers_to_rank st division)).

(** *** Queries *)

Definition get_active_drivers (st : t) (division : string) : list string :=
  map fst
    (filter (fun item =>
               String.eqb (Driver.division (snd item)) division
               && String.eqb (Driver.status (snd item)) DriverStatus.ACTIVE)
            (drivers st)).

Record stats : Type := mk_stats {
  total_drivers : Z;
  active_drivers : Z;
  eliminated_drivers : Z;
  stats_total_races : Z;
  stats_divisions : Z
}.

Definition len {A} (l : list A) : Z := Z.of_nat (List.length l).

Definition get_tournament_stats (st : t) : stats :=
  let ds := PyDict.values (drivers st) in
  mk_stats
    (len (drivers st))
    (len (filter (fun d => String.eqb (Driver.status d) DriverStatus.ACTIVE) ds))
    (len (filter (fun d => String.eqb (Driver.status d) DriverStatus.ELIMINATED) ds))
    (len (races st))
    (len (nodup string_dec (map Driver.division ds))).

(** *** Snapshots *)

Record data : Type := mk_data {
  d_drivers : option (PyDict.t Driver.data);
  d_races : option (list Race.data);
  d_race_counter : option Z
}.

Definition to_dict (st : t) : data :=
  mk_data (Some (PyDict.comprehension Driver.to_dict (drivers st)))
          (Some (map Race.to_dict (races st)))
          (Some (race_counter st)).

(** The list comprehension over [data['races']]; the [i]-th constructor
    call reads the clock at [clock i]. *)
Fixpoint races_from (clock : nat -> string) (i : nat) (l : list Race.data)
  : result (list Race.t) :=
  match l with
  | [] => inr []
  | x :: rest =>
      r <- Race.from_kwargs (clock i) x ;;
      rs <- races_from clock (S i) rest ;;
      inr (r :: rs)
  end.

(** The three assignments happen in order, so an exception in the second
    leaves the first done. *)
Definition from_dict (clock : nat -> string) (st : t) (x : data)
  : outcome t unit :=
  match (ds <- subscript "drivers" (d_drivers x) ;;
         PyDict.comprehension_r Driver.from_dict ds PyDict.empty) with
  | inl e => Raised st e
  | inr new_drivers =>
      let st1 := with_drivers st new_drivers in
      match (rs <- subscript "races" (d_races x) ;;
             races_from clock 0 rs) with
      | inl e => Raised st1 e
      | inr new_races =>
          Returned
            (mk new_drivers new_races
                (get_default (d_race_counter x) (len new_races))
                (divisions st))
            tt
      end
  end.

End TournamentManager.

(** ** The handlers that edit the driver table

    [tournament] is the global manager; each handler takes it and gives back
    its new value with the [success] and [message] fields of the JSON reply.
    Both bodies sit in [try ... except Exception], which turns an exception
    into a failure reply. *)

Module Api.
Import TournamentManager.

(** The JSON body of the PUT request. *)
Record update_request : Type := mk_update {
  u_name : option string;
  u_division : option string
}.

Definition update_driver (tournament : t) (driver_name : string)
    (body : option update_request) : t * (bool * string) :=
  match body with
  | None =>
      (tournament, (false, "'NoneType' object has no attribute 'get'"))
  | Some data =>
      let new_name := strip (get_default (u_name data) "") in
      let new_division := strip (get_default (u_division data) "") in
      if String.eqb new_name "" || String.eqb new_division ""
      then (tournament, (false, "Name and division are required"))
      else if negb (mem new_division (divisions tournament))
      then (tournament, (false, "Invalid division: " ++ new_division)%string)
      else if negb (PyDict.contains driver_name (drivers tournament))
      then (tournament,
            (false, "Driver " ++ driver_name ++ " not found")%string)
      else if negb (String.eqb new_name driver_name)
              && PyDict.contains new_name (drivers tournament)
      then (tournament,
            (false, "Driver " ++ new_name ++ " already exists")%string)
      else
        match PyDict.get driver_name (drivers tournament) with
        | None => (tournament, (false, "'" ++ driver_name ++ "'")%string)
        | Some driver =>
            let '(key, driver, table) :=
              if negb (String.eqb new_name driver_name)
              then
                let renamed := Driver.set_name driver new_name in
                (new_name, renamed,
                 PyDict.set new_name renamed
                   (PyDict.del driver_name (drivers tournament)))
              else (driver_name, driver, drivers tournament) in
            (with_drivers tournament
               (PyDict.set key (Driver.set_division driver new_division)
                           table),
             (true, "Driver updated successfully"))
        end
  end.

Definition delete_driver (tournament : t) (driver_name : string)
  : t * (bool * string) :=
  if negb (PyDict.contains driver_name (drivers tournament))
  then (tournament,
        (false, "Driver " ++ driver_name ++ " not found")%string)
  else (with_drivers tournament
          (PyDict.del driver_name (drivers tournament)),
        (true, "Driver " ++ driver_name ++ " deleted successfully")%string).

End Api.

(** ** Vocabulary of the properties *)

(** A call of [record_race], as data, so that sequences of calls can be
    talked about. *)
Record race_call : Type := mk_call {
  c_now : string;
  c_driver1 : string;
  c_driver2 : string;
  c_winner : string;
  c_driver3 : option string;
  c_race_type : string
}.

Definition call (st : TournamentManager.t) (c : race_call)
  : outcome TournamentManager.t (bool * string) :=
  TournamentManager.record_race (c_now c) st (c_driver1 c) (c_driver2 c)
    (c_winner c) (c_driver3 c) (c_race_type c).

Definition participants (c : race_call) : list string :=
  TournamentManager.racing_drivers (c_driver1 c) (c_driver2 c) (c_driver3 c).

(** The call returned [(True, message)]. *)
Definition succeeded {S} (o : outcome S (bool * string)) : bool :=
  match o with
  | Returned _ (ok, _) => ok
  | Raised _ _ => false
  end.

(** The calls are made one after the other on the same manager; whatever a
    call does, the next one sees the state it left.  The result is the final
    state and the calls that succeeded. *)
Fixpoint run (st : TournamentManager.t) (calls : list race_call)
  : TournamentManager.t * list race_call :=
  match calls with
  | [] => (st, [])
  | c :: rest =>
      let o := call st c in
      let '(final, done) := run (outcome_state o) rest in
      (final, if succeeded o then c :: done else done)
  end.

Definition sum (l : list Z) : Z := fold_right Z.add 0 l.

Definition sum_wins (st : TournamentManager.t) : Z :=
  sum (map Driver.wins (PyDict.values (TournamentManager.drivers st))).

Definition sum_losses (st : TournamentManager.t) : Z :=
  sum (map Driver.losses (PyDict.values (TournamentManager.drivers st))).

(** Participant slots of the recorded races: two or three per race. *)
Definition slots (done : list race_call) : Z :=
  sum (map (fun c => TournamentManager.len (participants c)) done).

(** The slots of a race that are not held by the winner's name: the number
    of times the loop over [racing_drivers] records a loss. *)
Definition loser_slots (c : race_call) : Z :=
  TournamentManager.len
    (filter (fun n => negb (String.eqb n (c_winner c))) (participants c)).

(** Every name a call mentions as a participant is a key of the table. *)
Definition closed (st : TournamentManager.t) (c : race_call) : Prop :=
  Forall (fun n => PyDict.contains n (TournamentManager.drivers st) = true)
         (participants c).

Definition fresh_records (st : TournamentManager.t) : Prop :=
  Forall (fun d => Driver.wins d = 0 /\ Driver.losses d = 0)
         (PyDict.values (TournamentManager.drivers st)).

(** The wording of the spec for the totals after a series of recordings:
    wins add up to the number of recorded races, losses to the participant
    slots minus that number. *)
Definition totals_as_specified : Prop :=
  forall st calls,
    fresh_records st ->
    Forall (closed st) calls ->
    let '(final, done) := run st calls in
    sum_wins final = TournamentManager.len done
    /\ sum_losses final = slots done - TournamentManager.len done.

(** *** Order of the rankings *)







(** *** Editing a driver *)

(** The request is refused: one of the five checks of [update_driver]
    fails for the trimmed name and division. *)
Definition update_refused (tournament : TournamentManager.t)
    (driver_name new_name new_division : string) : Prop :=
  new_name = ""
  \/ new_division = ""
  \/ TournamentManager.mem new_division
       (TournamentManager.divisions tournament) = false
  \/ PyDict.contains driver_name (TournamentManager.drivers tournament)
     = false
  \/ (new_name <> driver_name
      /\ PyDict.contains new_name (TournamentManager.drivers tournament)
         = true).

(** The table after an accepted request. *)
Definition updated_table (table : PyDict.t Driver.t)
    (driver_name new_name new_division : string) (driver : Driver.t)
  : PyDict.t Driver.t :=
  if String.eqb new_name driver_name
  then PyDict.set driver_name (Driver.set_division driver new_division) table
  else
    let renamed := Driver.set_name driver new_name in
    PyDict.set new_name (Driver.set_division renamed new_division)
      (PyDict.set new_name renamed (PyDict.del driver_name table)).

(** *** Snapshots *)

(** What the constructor call [Driver.from_dict] makes of a serialized
    driver: the fields that are present are taken, the others default. *)
Definition driver_imported (x : Driver.data) (d : Driver.t) : Prop :=
  Driver.d_name x = Some (Driver.name d)
  /\ Driver.d_division x = Some (Driver.division d)
  /\ Driver.wins d
     = match Driver.d_wins x with Some n => n | None => 0 end
  /\ Driver.losses d
     = match Driver.d_losses x with Some n => n | None => 0 end
  /\ Driver.races d
     = match Driver.d_races x with Some l => l | None => [] end
  /\ Driver.status d
     = match Driver.d_status x with
       | Some s => s
       | None => DriverStatus.ACTIVE
       end.

(** What the constructor call makes of a serialized race, when the clock
    reads [now]. *)
Definition race_imported (now : string) (x : Race.data) (r : Race.t) : Prop :=
  Race.d_race_number x = Some (Race.race_number r)
  /\ Race.d_driver1 x = Some (Race.driver1 r)
  /\ Race.d_driver2 x = Some (Race.driver2 r)
  /\ Race.d_winner x = Some (Race.winner r)
  /\ Race.d_division x = Some (Race.division r)
  /\ Race.timestamp r
     = match Race.d_timestamp x with
       | Some "" => now
       | Some ts => ts
       | None => now
       end
  /\ Race.driver3 r = Race.d_driver3 x
  /\ Race.race_type r
     = match Race.d_race_type x with Some ty => ty | None => "regular" end.

(** An entry of a comprehension over the items of a dict. *)
Definition on_values {V W} (f : V -> W) (kv : string * V) : string * W :=
  (fst kv, f (snd kv)).

(** What holds of every state of a running manager: the table has no key
    twice, and every logged race has a timestamp. *)
Definition well_formed (st : TournamentManager.t) : Prop :=
  NoDup (PyDict.keys (TournamentManager.drivers st))
  /\ Forall (fun r => Race.timestamp r <> "") (TournamentManager.races st).

(** The states a manager can be in: it starts empty and is changed only by
    its methods and by the two handlers.  The clock never reads as the empty
    string. *)
Inductive reachable : TournamentManager.t -> Prop :=
| reach_init : reachable TournamentManager.init
| reach_add_driver st name division :
    reachable st ->
    reachable (fst (TournamentManager.add_driver st name division))
| reach_record_race st now d1 d2 w d3 ty :
    reachable st -> now <> "" ->
    reachable (outcome_state (TournamentManager.record_race now st d1 d2 w d3 ty))
| reach_from_dict st clock x :
    reachable st -> (forall i, clock i <> "") ->
    reachable (outcome_state (TournamentManager.from_dict clock st x))
| reach_update_driver st driver_name body :
    reachable st ->
    reachable (fst (Api.update_driver st driver_name body))
| reach_delete_driver st driver_name :
    reachable st ->
    reachable (fst (Api.delete_driver st driver_name)).

(** The stored status agrees with the loss count. *)
Definition status_fresh (d : Driver.t) : Prop :=
  (Driver.status d = DriverStatus.ELIMINATED <-> 3 <= Driver.losses d) /\
  (Driver.status d = DriverStatus.ACTIVE <-> Driver.losses d < 3).

(** A driver found in the table afterwards is the one that was there before,
    or has a fresh status. *)
Definition untouched_or_fresh (st st' : TournamentManager.t) : Prop :=
  forall n d',
    PyDict.get n (TournamentManager.drivers st') = Some d' ->
    PyDict.get n (TournamentManager.drivers st) = Some d' \/ status_fresh d'.

(** *** Concrete tournaments used in the examples *)

Module Sample.
Import TournamentManager.

Definition noon : string := "2024-05-01T12:00:00".

(** Alice and Bob entered in OPEN. *)
Definition two_drivers : t :=
  fst (add_driver (fst (add_driver init "Alice" "OPEN")) "Bob" "OPEN").

(** Alice alone. *)
Definition one_driver : t := fst (add_driver init "Alice" "OPEN").

(** Bob has lost three races in a row against Alice. *)
Definition bob_out : t :=
  fst (run two_drivers
         (repeat (mk_call noon "Alice" "Bob" "Alice" None "regular") 3%nat)).

(** A table as an import can leave it: the stored status of both drivers
    contradicts their losses. *)
Definition stale : t :=
  mk [("Alice", Driver.mk "Alice" "OPEN" 5 0 [] DriverStatus.ELIMINATED);
      ("Bob", Driver.mk "Bob" "OPEN" 0 3 [] DriverStatus.ACTIVE);
      ("Carol", Driver.mk "Carol" "OPEN" 0 0 [] DriverStatus.INACTIVE)]
     [] 0 (divisions init).

Definition alice_beats_bob : race_call :=
  mk_call noon "Alice" "Bob" "Alice" None "regular".

(** Alice entered as both sides of a race. *)
Definition alice_alone : race_call :=
  mk_call noon "Alice" "Alice" "Alice" None "regular".

(** A snapshot in which most optional keys are missing. *)
Definition sparse_snapshot : data :=
  mk_data
    (Some [("Dan", Driver.mk_data (Some "Dan") (Some "OPEN")
                                  None None None None);
           ("Eve", Driver.mk_data (Some "Eve") (Some "DAMES")
                                  (Some 2) None (Some [1; 2]) None)])
    (Some [Race.mk_data (Some 1) (Some "Dan") (Some "Eve") (Some "Eve")
                        (Some "OPEN") None None None []])
    None.

(** The snapshot that leaves the table [stale] behind. *)
Definition stale_snapshot : data :=
  mk_data
    (Some [("Alice", Driver.mk_data (Some "Alice") (Some "OPEN") (Some 5)
                       (Some 0) (Some []) (Some "ELIMINATED"));
           ("Bob", Driver.mk_data (Some "Bob") (Some "OPEN") (Some 0)
                     (Some 3) (Some []) (Some "ACTIVE"));
           ("Carol", Driver.mk_data (Some "Carol") (Some "OPEN") (Some 0)
                       (Some 0) (Some []) (Some "INACTIVE"))])
    (Some [])
    (Some 0).

Definition at_noon (i : nat) : string := noon.

End Sample.

(** *** The cases of [record_race] *)

Section RecordRaceCases.
Import TournamentManager.

(** The part of the manager that [add_race_result] calls cannot touch. *)
Definition same_log (st st' : t) : Prop :=
  races st' = races st /\ race_counter st' = race_counter st
  /\ divisions st' = divisions st.

(** The four checks, in the order in which they are made.  Each line says:
    the earlier checks passed, this one did not, and this is the reply. *)
Inductive verdict (st : t) (d1 d2 w : string) (d3 : option string)
  : option string -> Prop :=
| not_found :
    PyDict.contains d1 (drivers st) = false
    \/ PyDict.contains d2 (drivers st) = false ->
    verdict st d1 d2 w d3 (Some "Driver not found")
| bad_winner a b :
    PyDict.get d1 (drivers st) = Some a ->
    PyDict.get d2 (drivers st) = Some b ->
    mem w (racing_drivers d1 d2 d3) = false ->
    verdict st d1 d2 w d3 (Some "Winner must be one of the racing drivers")
| other_division a b :
    PyDict.get d1 (drivers st) = Some a ->
    PyDict.get d2 (drivers st) = Some b ->
    mem w (racing_drivers d1 d2 d3) = true ->
    Driver.division a <> Driver.division b ->
    verdict st d1 d2 w d3 (Some "Drivers must be in the same division")
| eliminated a b :
    PyDict.get d1 (drivers st) = Some a ->
    PyDict.get d2 (drivers st) = Some b ->
    mem w (racing_drivers d1 d2 d3) = true ->
    Driver.division a = Driver.division b ->
    3 <= Driver.losses a \/ 3 <= Driver.losses b ->
    verdict st d1 d2 w d3 (Some "Eliminated drivers cannot race")
| accepted a b :
    PyDict.get d1 (drivers st) = Some a ->
    PyDict.get d2 (drivers st) = Some b ->
    mem w (racing_drivers d1 d2 d3) = true ->
    Driver.division a = Driver.division b ->
    Driver.losses a < 3 -> Driver.losses b < 3 ->
    verdict st d1 d2 w d3 None.

(** The state on which the winner and the losers are then recorded. *)
Definition logged (now : string) (st : t) (d1 d2 w : string)
    (d3 : option string) (ty : string) (a : Driver.t) : t :=
  mk (drivers st)
     (races st ++ [Race.init now (race_counter st + 1) d1 d2 w
                             (Driver.division a) None d3 ty])
     (race_counter st + 1) (divisions st).

Definition recorded (now : string) (st : t) (d1 d2 w : string)
    (d3 : option string) (ty : string) (a : Driver.t)
  : outcome t (bool * string) :=
  let st1 := logged now st d1 d2 w d3 ty a in
  match apply_result st1 w (race_counter st + 1) true with
  | Raised st2 e => Raised st2 e
  | Returned st2 _ =>
      match record_losers st2 w (racing_drivers d1 d2 d3) with
      | Raised st3 e => Raised st3 e
      | Returned st3 _ =>
          Returned st3
            (true, "Race " ++ str (race_counter st3) ++ ": " ++ w ++ " wins!")%string
      end
  end.

End RecordRaceCases.

(** *** Further vocabulary: names, tables and logs *)

(** A name made of whitespace only (the empty name included). *)
Definition blank (s : string) : Prop :=
  Forall (fun c => isspace c = true) (list_ascii_of_string s).

(** The keys of a table without the key [k], in their order. *)
Definition keys_without {V} (k : string) (d : PyDict.t V) : list string :=
  filter (fun k' => negb (String.eqb k' k)) (PyDict.keys d).

(** A driver record after some more results: same name and division, no
    fewer wins or losses, and the race list continued. *)
Definition grown (d d' : Driver.t) : Prop :=
  Driver.name d' = Driver.name d
  /\ Driver.division d' = Driver.division d
  /\ Driver.wins d <= Driver.wins d'
  /\ Driver.losses d <= Driver.losses d'
  /\ exists more, Driver.races d' = Driver.races d ++ more.

(** Every driver of the first table is found, grown, in the second. *)
Definition all_grown (ds ds' : PyDict.t Driver.t) : Prop :=
  forall k d, PyDict.get k ds = Some d ->
              exists d', PyDict.get k ds' = Some d' /\ grown d d'.

(** *** Tournaments that were never loaded from a snapshot *)

(** The states a manager reaches from [TournamentManager()] through
    [add_driver], [record_race] and the two handlers, without [from_dict]. *)
Inductive core_reachable : TournamentManager.t -> Prop :=
| core_init : core_reachable TournamentManager.init
| core_add_driver st name division :
    core_reachable st ->
    core_reachable (fst (TournamentManager.add_driver st name division))
| core_record_race st now d1 d2 w d3 ty :
    core_reachable st ->
    core_reachable
      (outcome_state (TournamentManager.record_race now st d1 d2 w d3 ty))
| core_update_driver st driver_name body :
    core_reachable st ->
    core_reachable (fst (Api.update_driver st driver_name body))
| core_delete_driver st driver_name :
    core_reachable st ->
    core_reachable (fst (Api.delete_driver st driver_name)).

(** A property of every entry of a table, key and record. *)
Definition every_driver (P : string -> Driver.t -> Prop)
    (ds : PyDict.t Driver.t) : Prop :=
  forall k d, PyDict.get k ds = Some d -> P k d.

(** A record as the methods keep it: stored under its own name, in one of
    the fixed divisions, with counters that are not negative and add up to
    the number of races listed, and with a status that agrees with the
    losses. *)
Definition sound_driver (k : string) (d : Driver.t) : Prop :=
  Driver.name d = k
  /\ In (Driver.division d) (TournamentManager.divisions TournamentManager.init)
  /\ 0 <= Driver.wins d
  /\ 0 <= Driver.losses d
  /\ TournamentManager.len (Driver.races d) = Driver.total_races d
  /\ status_fresh d.

(** The log holds the races 1, 2, ... in this order and the counter is the
    number of the last one. *)
Definition numbered (st : TournamentManager.t) : Prop :=
  TournamentManager.race_counter st
  = TournamentManager.len (TournamentManager.races st)
  /\ forall i r, nth_error (TournamentManager.races st) i = Some r ->
                 Race.race_number r = Z.of_nat i + 1.

Definition core_invariant (st : TournamentManager.t) : Prop :=
  NoDup (PyDict.keys (TournamentManager.drivers st))
  /\ TournamentManager.divisions st
     = TournamentManager.divisions TournamentManager.init
  /\ every_driver sound_driver (TournamentManager.drivers st)
  /\ numbered st.

(** *** Snapshots that can be imported *)

(** The two keys [Driver.from_dict] subscripts are there. *)
Definition driver_readable (x : Driver.data) : Prop :=
  Driver.d_name x <> None /\ Driver.d_division x <> None.

(** The keys are parameters of [Race.__init__] and the five parameters
    without a default are among them. *)
Definition race_constructible (x : Race.data) : Prop :=
  Race.d_unexpected x = []
  /\ Race.d_race_number x <> None
  /\ Race.d_driver1 x <> None
  /\ Race.d_driver2 x <> None
  /\ Race.d_winner x <> None
  /\ Race.d_division x <> None.

Definition acceptable (x : TournamentManager.data) : Prop :=
  exists ds rs,
    TournamentManager.d_drivers x = Some ds
    /\ TournamentManager.d_races x = Some rs
    /\ Forall (fun kv => driver_readable (snd kv)) ds
    /\ Forall race_constructible rs.

(** A snapshot as [to_dict] writes it: every key present, no key of the
    driver table twice, every timestamp non-empty. *)
Definition complete_driver (x : Driver.data) : Prop :=
  driver_readable x
  /\ Driver.d_wins x <> None /\ Driver.d_losses x <> None
  /\ Driver.d_races x <> None /\ Driver.d_status x <> None.

Definition complete_race (x : Race.data) : Prop :=
  race_constructible x
  /\ (exists ts, Race.d_timestamp x = Some ts /\ ts <> "")
  /\ Race.d_race_type x <> None.

Definition complete (x : TournamentManager.data) : Prop :=
  exists ds rs n,
    x = TournamentManager.mk_data (Some ds) (Some rs) (Some n)
    /\ NoDup (PyDict.keys ds)
    /\ Forall (fun kv => complete_driver (snd kv)) ds
    /\ Forall complete_race rs.

(** A snapshot with a drivers table and no [races] key. *)
Definition races_missing_snapshot : TournamentManager.data :=
  TournamentManager.mk_data
    (Some [("Dan", Driver.mk_data (Some "Dan") (Some "OPEN")
                                  None None None None)])
    None
    (Some 7).

(** The snapshot [to_dict] writes after Alice's first win over Bob. *)
Definition first_race_snapshot : TournamentManager.data :=
  TournamentManager.mk_data
    (Some [("Alice", Driver.mk_data (Some "Alice") (Some "OPEN") (Some 1)
                       (Some 0) (Some [1]) (Some "ACTIVE"));
           ("Bob", Driver.mk_data (Some "Bob") (Some "OPEN") (Some 0)
                     (Some 1) (Some [1]) (Some "ACTIVE"))])
    (Some [Race.mk_data (Some 1) (Some "Alice") (Some "Bob") (Some "Alice")
                        (Some "OPEN") (Some "2024-05-01T12:00:00") None
                        (Some "regular") []])
    (Some 1).

(** * Properties *)

(** ** Dictionaries *)

Section PyDictFacts.
Context {V : Type}.
Implicit Types (d : PyDict.t V) (k : string) (v : V).

Lemma contains_get k d :
  PyDict.contains k d = true <-> exists v, PyDict.get k d = Some v.
Proof.
  unfold PyDict.contains. destruct (PyDict.get k d) as [v|].
  - split; [eauto | reflexivity].
  - split; [discriminate | intros [v H]; discriminate].
Qed.

Lemma contains_false_get k d :
  PyDict.contains k d = false <-> PyDict.get k d = None.
Proof.
  unfold PyDict.contains. destruct (PyDict.get k d); split; congruence.
Qed.

Lemma contains_keys k d :
  PyDict.contains k d = true <-> In k (PyDict.keys d).
Proof.
  unfold PyDict.contains. induction d as [|[k' v'] r IH]; simpl.
  - split; [discriminate | tauto].
  - destruct (String.eqb_spec k k') as [->|Hne].
    + split; auto.
    + rewrite IH. split; [auto | intros [H|H]; congruence].
Qed.

Lemma get_set_eq k v d : PyDict.get k (PyDict.set k v d) = Some v.
Proof.
  induction d as [|[k' v'] r IH]; simpl.
  - now rewrite String.eqb_refl.
  - destruct (String.eqb_spec k k') as [->|Hne]; simpl.
    + now rewrite String.eqb_refl.
    + destruct (String.eqb_spec k k'); [congruence | exact IH].
Qed.

Lemma get_set_ne k k' v d :
  k <> k' -> PyDict.get k (PyDict.set k' v d) = PyDict.get k d.
Proof.
  intros Hne. induction d as [|[k0 v0] r IH]; simpl.
  - destruct (String.eqb_spec k k'); [congruence | reflexivity].
  - destruct (String.eqb_spec k' k0) as [->|Hne']; simpl.
    + destruct (String.eqb_spec k k0); [congruence | reflexivity].
    + destruct (String.eqb_spec k k0); [reflexivity | exact IH].
Qed.

Lemma keys_set_present k v d :
  PyDict.contains k d = true -> PyDict.keys (PyDict.set k v d) = PyDict.keys d.
Proof.
  unfold PyDict.contains.
  induction d as [|[k' v'] r IH]; simpl; [discriminate|].
  destruct (String.eqb_spec k k') as [->|Hne]; simpl; [reflexivity|].
  intros H. f_equal. exact (IH H).
Qed.

Lemma set_absent k v d :
  PyDict.contains k d = false -> PyDict.set k v d = d ++ [(k, v)].
Proof.
  unfold PyDict.contains.
  induction d as [|[k' v'] r IH]; simpl; [reflexivity|].
  destruct (String.eqb_spec k k') as [->|Hne]; [discriminate|].
  intros H. f_equal. exact (IH H).
Qed.

Lemma contains_set k k' v d :
  PyDict.contains k (PyDict.set k' v d) =
  (String.eqb k k' || PyDict.contains k d)%bool.
Proof.
  unfold PyDict.contains.
  destruct (String.eqb_spec k k') as [->|Hne]; simpl.
  - now rewrite get_set_eq.
  - now rewrite get_set_ne.
Qed.

Lemma get_del_eq k d :
  NoDup (PyDict.keys d) -> PyDict.get k (PyDict.del k d) = None.
Proof.
  induction d as [|[k' v'] r IH]; simpl; [reflexivity|].
  intros Hnd. inversion Hnd as [|? ? Hnotin Hnd']; subst.
  destruct (String.eqb_spec k k') as [->|Hne]; simpl.
  - apply contains_false_get.
    destruct (PyDict.contains k' r) eqn:E; [|reflexivity].
    apply contains_keys in E. contradiction.
  - destruct (String.eqb_spec k k'); [congruence | auto].
Qed.

Lemma get_del_ne k k' d :
  k <> k' -> PyDict.get k (PyDict.del k' d) = PyDict.get k d.
Proof.
  intros Hne. induction d as [|[k0 v0] r IH]; simpl; [reflexivity|].
  destruct (String.eqb_spec k' k0) as [->|Hne']; simpl.
  - destruct (String.eqb_spec k k0); [congruence | reflexivity].
  - destruct (String.eqb_spec k k0); [reflexivity | exact IH].
Qed.

Lemma keys_del_incl k d x : In x (PyDict.keys (PyDict.del k d)) -> In x (PyDict.keys d).
Proof.
  induction d as [|[k' v'] r IH]; simpl; [tauto|].
  destruct (String.eqb_spec k k'); simpl; tauto.
Qed.

Lemma NoDup_keys_del k d :
  NoDup (PyDict.keys d) -> NoDup (PyDict.keys (PyDict.del k d)).
Proof.
  induction d as [|[k' v'] r IH]; simpl; [auto|].
  intros Hnd. inversion Hnd; subst.
  destruct (String.eqb_spec k k'); simpl; [assumption|].
  constructor; [|auto]. intros Hin. apply keys_del_incl in Hin. contradiction.
Qed.

Lemma NoDup_keys_set k v d :
  NoDup (PyDict.keys d) -> NoDup (PyDict.keys (PyDict.set k v d)).
Proof.
  intros Hnd. destruct (PyDict.contains k d) eqn:E.
  - now rewrite keys_set_present.
  - rewrite set_absent by assumption. unfold PyDict.keys.
    rewrite map_app. simpl.
    apply NoDup_app; [assumption | repeat constructor; simpl; tauto |].
    intros x Hx [<-|[]].
    apply contains_keys in Hx. congruence.
Qed.

End PyDictFacts.

(** ** Recording a race *)

Section RecordRace.
Import TournamentManager.

Lemma same_log_refl st : same_log st st.
Proof. repeat split. Qed.

Lemma same_log_trans a b c : same_log a b -> same_log b c -> same_log a c.
Proof. unfold same_log. intuition congruence. Qed.

Lemma apply_result_log st n rn won :
  same_log st (outcome_state (apply_result st n rn won)).
Proof.
  unfold apply_result, same_log.
  destruct (PyDict.get n (drivers st)); simpl; auto.
Qed.

Lemma record_losers_log names : forall st w,
  same_log st (outcome_state (record_losers st w names)).
Proof.
  induction names as [|n rest IH]; intros st w; simpl.
  - apply same_log_refl.
  - destruct (String.eqb n w); [apply IH|].
    pose proof (apply_result_log st n (race_counter st) false) as H.
    destruct (apply_result st n (race_counter st) false) as [st' []|st' e];
      simpl in *; [|exact H].
    eapply same_log_trans; [exact H | apply IH].
Qed.

Lemma record_race_verdict now st d1 d2 w d3 ty :
  (exists msg, verdict st d1 d2 w d3 (Some msg)
               /\ record_race now st d1 d2 w d3 ty = Returned st (false, msg))
  \/ (exists a b, verdict st d1 d2 w d3 None
                  /\ PyDict.get d1 (drivers st) = Some a
                  /\ PyDict.get d2 (drivers st) = Some b
                  /\ record_race now st d1 d2 w d3 ty
                     = recorded now st d1 d2 w d3 ty a).
Proof.
  unfold record_race, recorded, logged.
  destruct (PyDict.contains d1 (drivers st)) eqn:E1; cbn [negb orb].
  2:{ left. eexists. split; [apply not_found; auto | reflexivity]. }
  destruct (PyDict.contains d2 (drivers st)) eqn:E2; cbn [negb orb].
  2:{ left. eexists. split; [apply not_found; auto | reflexivity]. }
  apply contains_get in E1, E2. destruct E1 as [a Ha], E2 as [b Hb].
  rewrite Ha, Hb.
  destruct (mem w (racing_drivers d1 d2 d3)) eqn:Ew; cbn [negb].
  2:{ left. eexists. split; [eapply bad_winner; eauto | reflexivity]. }
  destruct (String.eqb_spec (Driver.division a) (Driver.division b))
    as [Hdiv|Hdiv]; cbn [negb].
  2:{ left. eexists. split; [eapply other_division; eauto | reflexivity]. }
  unfold Driver.is_eliminated.
  destruct (Z.leb_spec 3 (Driver.losses a)); cbn [orb].
  { left. eexists. split; [eapply eliminated; eauto | reflexivity]. }
  destruct (Z.leb_spec 3 (Driver.losses b)); cbn [orb].
  { left. eexists. split; [eapply eliminated; eauto | reflexivity]. }
  right. exists a, b. repeat split; try assumption.
  eapply accepted; eauto.
Qed.

Lemma recorded_log now st d1 d2 w d3 ty a :
  same_log (logged now st d1 d2 w d3 ty a)
           (outcome_state (recorded now st d1 d2 w d3 ty a)).
Proof.
  unfold recorded. generalize (racing_drivers d1 d2 d3) as names.
  intros names.
  pose proof (apply_result_log (logged now st d1 d2 w d3 ty a) w
                (race_counter st + 1) true) as H1.
  destruct (apply_result _ w _ true) as [st2 []|st2 e];
    cbn [outcome_state] in *; [|exact H1].
  pose proof (record_losers_log names st2 w) as H2.
  destruct (record_losers st2 w names) as [st3 []|st3 e];
    cbn [outcome_state] in *; exact (same_log_trans _ _ _ H1 H2).
Qed.

Lemma recorded_ok now st d1 d2 w d3 ty a st' ok msg :
  recorded now st d1 d2 w d3 ty a = Returned st' (ok, msg) -> ok = true.
Proof.
  unfold recorded.
  destruct (apply_result _ w _ true) as [st2 []|]; [|discriminate].
  destruct (record_losers st2 w _) as [st3 []|]; [|discriminate].
  congruence.
Qed.

End RecordRace.

Section RecordRaceClosed.
Import TournamentManager.

(** Recording a result under a key that is present returns, and changes no
    key. *)
Lemma apply_result_present st n rn won :
  PyDict.contains n (drivers st) = true ->
  exists st', apply_result st n rn won = Returned st' tt
              /\ PyDict.keys (drivers st') = PyDict.keys (drivers st).
Proof.
  intros Hin. unfold apply_result.
  destruct (contains_get n (drivers st)) as [Hget _].
  destruct (Hget Hin) as [d Hd]. rewrite Hd.
  eexists. split; [reflexivity|]. simpl. now apply keys_set_present.
Qed.

Lemma contains_same_keys {V} (d d' : PyDict.t V) n :
  PyDict.keys d' = PyDict.keys d ->
  PyDict.contains n d = true -> PyDict.contains n d' = true.
Proof.
  intros Hk Hin. apply contains_keys. rewrite Hk. now apply contains_keys.
Qed.

Lemma record_losers_closed names : forall st w,
  Forall (fun n => PyDict.contains n (drivers st) = true) names ->
  exists st', record_losers st w names = Returned st' tt
              /\ PyDict.keys (drivers st') = PyDict.keys (drivers st).
Proof.
  induction names as [|n rest IH]; intros st w Hall; simpl.
  - eauto.
  - inversion Hall as [|? ? Hn Hrest]; subst.
    destruct (String.eqb n w); [now apply IH|].
    destruct (apply_result_present st n (race_counter st) false Hn)
      as (st1 & -> & Hk1).
    destruct (IH st1 w) as (st2 & -> & Hk2).
    + eapply Forall_impl; [|exact Hrest].
      intros x. now apply contains_same_keys.
    + eexists. split; [reflexivity | congruence].
Qed.

Lemma mem_In x l : mem x l = true <-> In x l.
Proof.
  unfold mem. rewrite existsb_exists. split.
  - intros (y & Hy & E). apply String.eqb_eq in E. now subst.
  - intros H. exists x. split; [assumption | apply String.eqb_refl].
Qed.

(** When every participant is a key of the table, an accepted race is
    recorded and reported as a success. *)
Lemma recorded_closed now st d1 d2 w d3 ty a :
  Forall (fun n => PyDict.contains n (drivers st) = true)
         (racing_drivers d1 d2 d3) ->
  mem w (racing_drivers d1 d2 d3) = true ->
  exists st' msg,
    recorded now st d1 d2 w d3 ty a = Returned st' (true, msg)
    /\ PyDict.keys (drivers st') = PyDict.keys (drivers st).
Proof.
  intros Hall Hw. unfold recorded.
  assert (Hwin : PyDict.contains w (drivers (logged now st d1 d2 w d3 ty a))
                 = true).
  { apply mem_In in Hw. rewrite Forall_forall in Hall. now apply Hall. }
  destruct (apply_result_present _ w (race_counter st + 1) true Hwin)
    as (st2 & -> & Hk2).
  destruct (record_losers_closed (racing_drivers d1 d2 d3) st2 w)
    as (st3 & -> & Hk3).
  - eapply Forall_impl; [|exact Hall].
    intros x. now apply contains_same_keys.
  - do 2 eexists. split; [reflexivity|]. rewrite Hk3, Hk2. reflexivity.
Qed.

Lemma verdict_functional st d1 d2 w d3 v v' :
  verdict st d1 d2 w d3 v -> verdict st d1 d2 w d3 v' -> v = v'.
Proof.
  intros H H'.
  destruct H; destruct H'; try reflexivity;
    repeat match goal with
           | H : _ \/ _ |- _ => destruct H
           | H : PyDict.contains _ _ = false |- _ =>
               apply contains_false_get in H
           end;
    try congruence;
    repeat match goal with
           | H1 : PyDict.get ?k ?d = Some ?x,
             H2 : PyDict.get ?k ?d = Some ?y |- _ =>
               assert (x = y) by congruence; subst y; clear H2
           end;
    try congruence; try lia.
Qed.

End RecordRaceClosed.

(** A driver found in the table after a call is either the one that was
    there before, or has a status that agrees with its losses. *)
Section StatusAfterRace.
Import TournamentManager.

Lemma status_fresh_update d : status_fresh (Driver.update_status d).
Proof.
  unfold status_fresh, Driver.update_status, Driver.is_eliminated.
  destruct (Z.leb_spec 3 (Driver.losses d)); simpl;
    unfold DriverStatus.ELIMINATED, DriverStatus.ACTIVE;
    repeat split; intros; try lia; try discriminate; reflexivity.
Qed.

Lemma untouched_or_fresh_refl st : untouched_or_fresh st st.
Proof. intros n d' H. now left. Qed.

Lemma untouched_or_fresh_trans a b c :
  untouched_or_fresh a b -> untouched_or_fresh b c ->
  untouched_or_fresh a c.
Proof.
  intros Hab Hbc n d' H. destruct (Hbc n d' H) as [H'|H']; auto.
Qed.

Lemma apply_result_fresh st n rn won :
  untouched_or_fresh st (outcome_state (apply_result st n rn won)).
Proof.
  unfold apply_result.
  destruct (PyDict.get n (drivers st)) as [d|] eqn:E;
    cbn [outcome_state]; [|apply untouched_or_fresh_refl].
  intros k d' H. simpl in H.
  destruct (String.eqb_spec k n) as [->|Hne].
  - rewrite get_set_eq in H. injection H as <-. right.
    apply status_fresh_update.
  - rewrite get_set_ne in H by assumption. now left.
Qed.

Lemma record_losers_fresh names : forall st w,
  untouched_or_fresh st (outcome_state (record_losers st w names)).
Proof.
  induction names as [|n rest IH]; intros st w; simpl.
  - apply untouched_or_fresh_refl.
  - destruct (String.eqb n w); [apply IH|].
    pose proof (apply_result_fresh st n (race_counter st) false) as H.
    destruct (apply_result st n (race_counter st) false) as [st' []|st' e];
      cbn [outcome_state] in *; [|exact H].
    eapply untouched_or_fresh_trans; [exact H | apply IH].
Qed.

Lemma recorded_fresh now st d1 d2 w d3 ty a :
  untouched_or_fresh st (outcome_state (recorded now st d1 d2 w d3 ty a)).
Proof.
  unfold recorded. generalize (racing_drivers d1 d2 d3) as names.
  intros names.
  pose proof (apply_result_fresh (logged now st d1 d2 w d3 ty a) w
                (race_counter st + 1) true) as H1.
  destruct (apply_result _ w _ true) as [st2 []|st2 e];
    cbn [outcome_state] in *; [|exact H1].
  pose proof (record_losers_fresh names st2 w) as H2.
  destruct (record_losers st2 w names) as [st3 []|st3 e];
    cbn [outcome_state] in *;
    exact (untouched_or_fresh_trans _ _ _ H1 H2).
Qed.

Lemma record_race_fresh now st d1 d2 w d3 ty :
  untouched_or_fresh st
    (outcome_state (record_race now st d1 d2 w d3 ty)).
Proof.
  destruct (record_race_verdict now st d1 d2 w d3 ty)
    as [(msg & _ & ->)|(a & b & _ & _ & _ & ->)].
  - apply untouched_or_fresh_refl.
  - apply recorded_fresh.
Qed.

End StatusAfterRace.

(** ** The claims about [record_race] and [add_race_result] *)

Section RaceClaims.
Import TournamentManager.

(** C3. After [add_race_result] the stored status of the driver is
    ELIMINATED exactly when its losses are at least 3 and ACTIVE exactly
    when they are below 3; and whatever [record_race] does (reject, record,
    or stop on an exception), a driver record it has changed has such a
    status. *)
Theorem status_never_stale :
  (forall d race_number won,
      status_fresh (Driver.add_race_result d race_number won))
  /\ (forall now st d1 d2 w d3 ty,
         untouched_or_fresh st
           (outcome_state (record_race now st d1 d2 w d3 ty))).
Proof.
  split.
  - intros d rn won. unfold Driver.add_race_result.
    apply status_fresh_update.
  - intros. apply record_race_fresh.
Qed.

(** C4. When [record_race] reports success the counter has grown by
    exactly one; when it reports failure the counter and the race log are
    what they were. *)
Theorem record_race_counter now st d1 d2 w d3 ty st' ok msg :
  record_race now st d1 d2 w d3 ty = Returned st' (ok, msg) ->
  (ok = true -> race_counter st' = race_counter st + 1)
  /\ (ok = false ->
      race_counter st' = race_counter st /\ races st' = races st).
Proof.
  intros H.
  destruct (record_race_verdict now st d1 d2 w d3 ty)
    as [(m & _ & E)|(a & b & _ & _ & _ & E)]; rewrite E in H.
  - injection H as <- <- <-. split; [discriminate | auto].
  - pose proof (recorded_ok _ _ _ _ _ _ _ _ _ _ _ H) as ->.
    pose proof (recorded_log now st d1 d2 w d3 ty a) as (_ & Hc & _).
    rewrite H in Hc. cbn [outcome_state] in Hc.
    split; [intros _; exact Hc | discriminate].
Qed.

(** C5. [record_race] checks, in this order, that the first two drivers
    exist, that the winner is a participant, that the first two drivers
    share a division and that neither has three losses; the first check
    that fails gives the reply and leaves the state alone.  So a race
    between divisions, a race with an eliminated first or second driver and
    a race whose winner is no participant all fail. *)
Theorem record_race_validation now st d1 d2 w d3 ty :
  let reply := record_race now st d1 d2 w d3 ty in
  let fails := exists msg, reply = Returned st (false, msg) in
  (forall msg, verdict st d1 d2 w d3 (Some msg) ->
               reply = Returned st (false, msg))
  /\ (forall a b,
         PyDict.get d1 (drivers st) = Some a ->
         PyDict.get d2 (drivers st) = Some b ->
         Driver.division a <> Driver.division b -> fails)
  /\ (forall a, PyDict.get d1 (drivers st) = Some a ->
                3 <= Driver.losses a -> fails)
  /\ (forall b, PyDict.get d2 (drivers st) = Some b ->
                3 <= Driver.losses b -> fails)
  /\ (~ In w ([d1; d2] ++ match d3 with Some n => [n] | None => [] end) ->
      fails).
Proof.
  intros reply fails. subst reply fails.
  assert (Hno : ~ verdict st d1 d2 w d3 None ->
                exists msg, record_race now st d1 d2 w d3 ty
                            = Returned st (false, msg)).
  { intros Hno.
    destruct (record_race_verdict now st d1 d2 w d3 ty)
      as [(m & _ & E)|(a & b & Hv & _)]; [eauto | contradiction]. }
  split; [|repeat split].
  - intros msg Hv.
    destruct (record_race_verdict now st d1 d2 w d3 ty)
      as [(m & Hm & E)|(a & b & Hacc & _)].
    + pose proof (verdict_functional _ _ _ _ _ _ _ Hv Hm) as Heq.
      injection Heq as ->. exact E.
    + pose proof (verdict_functional _ _ _ _ _ _ _ Hv Hacc).
      discriminate.
  - intros a b Ha Hb Hdiv. apply Hno. inversion 1; subst. congruence.
  - intros a Ha Hl. apply Hno. inversion 1; subst.
    assert (a0 = a) by congruence. subst. lia.
  - intros b Hb Hl. apply Hno. inversion 1; subst.
    assert (b0 = b) by congruence. subst. lia.
  - intros Hw. apply Hno. inversion 1; subst.
    match goal with H : mem _ _ = true |- _ => apply mem_In in H end.
    apply Hw. unfold racing_drivers in *.
    destruct d3 as [n|]; [|assumption].
    destruct (Race.truthy (Some n)); [assumption|].
    apply in_or_app. left. rewrite app_nil_r in *. assumption.
Qed.

(** C10. The elimination check of [record_race] reads the losses of the
    first two drivers and nothing else: with the other checks passed and
    every participant in the table, the race is recorded when both have
    fewer than three losses and is refused when one has three or more,
    whatever status is stored for them. *)
Theorem record_race_ignores_status now st d1 d2 w d3 ty a b :
  PyDict.get d1 (drivers st) = Some a ->
  PyDict.get d2 (drivers st) = Some b ->
  mem w (racing_drivers d1 d2 d3) = true ->
  Driver.division a = Driver.division b ->
  Forall (fun n => PyDict.contains n (drivers st) = true)
         (racing_drivers d1 d2 d3) ->
  (Driver.losses a < 3 /\ Driver.losses b < 3 ->
   succeeded (record_race now st d1 d2 w d3 ty) = true)
  /\ (3 <= Driver.losses a \/ 3 <= Driver.losses b ->
      record_race now st d1 d2 w d3 ty
      = Returned st (false, "Eliminated drivers cannot race")).
Proof.
  intros Ha Hb Hw Hdiv Hall. split.
  - intros [Hla Hlb].
    destruct (record_race_verdict now st d1 d2 w d3 ty)
      as [(m & Hm & E)|(a' & b' & _ & Ha' & _ & E)].
    + assert (Hacc : verdict st d1 d2 w d3 None)
        by (eapply accepted; eauto).
      pose proof (verdict_functional _ _ _ _ _ _ _ Hm Hacc). discriminate.
    + rewrite E.
      destruct (recorded_closed now st d1 d2 w d3 ty a' Hall Hw)
        as (st' & msg & -> & _).
      reflexivity.
  - intros Hl.
    destruct (record_race_verdict now st d1 d2 w d3 ty)
      as [(m & Hm & E)|(a' & b' & Hacc & _)].
    + assert (Hel : verdict st d1 d2 w d3
                      (Some "Eliminated drivers cannot race"))
        by (eapply eliminated; eauto).
      pose proof (verdict_functional _ _ _ _ _ _ _ Hm Hel) as Heq.
      injection Heq as ->. exact E.
    + assert (Hel : verdict st d1 d2 w d3
                      (Some "Eliminated drivers cannot race"))
        by (eapply eliminated; eauto).
      pose proof (verdict_functional _ _ _ _ _ _ _ Hacc Hel). discriminate.
Qed.

End RaceClaims.

Section RaceClaimsExamples.
Import TournamentManager.

(** Bob's first defeat leaves him ACTIVE with one loss. *)
Lemma status_never_stale_witness :
  status_fresh (Driver.add_race_result (Driver.new "Bob" "OPEN") 1 false).
Proof.
  exact (proj1 status_never_stale (Driver.new "Bob" "OPEN") 1 false).
Defined.

(** The first race between Alice and Bob is recorded and the counter goes
    from 0 to 1. *)
Lemma record_race_counter_witness :
  let st' := outcome_state (record_race Sample.noon Sample.two_drivers
                              "Alice" "Bob" "Alice" None "regular") in
  race_counter st' = race_counter Sample.two_drivers + 1.
Proof.
  intros st'.
  refine (proj1 (record_race_counter Sample.noon Sample.two_drivers
                   "Alice" "Bob" "Alice" None "regular" st' true _ _)
                eq_refl).
  reflexivity.
Defined.

(** Once Bob has three losses, a fourth race with him is refused with the
    eliminated-driver message. *)
Lemma record_race_validation_witness :
  record_race Sample.noon Sample.bob_out "Alice" "Bob" "Alice" None "regular"
  = Returned Sample.bob_out (false, "Eliminated drivers cannot race").
Proof.
  refine (proj1 (record_race_validation Sample.noon Sample.bob_out
                   "Alice" "Bob" "Alice" None "regular") _ _).
  eapply eliminated.
  - vm_compute; reflexivity.
  - vm_compute; reflexivity.
  - vm_compute; reflexivity.
  - vm_compute; reflexivity.
  - right. vm_compute. discriminate.
Defined.

(** Alice is stored as ELIMINATED and Carol as INACTIVE, both without a
    loss: their race is recorded. *)
Lemma record_race_ignores_status_witness :
  succeeded (record_race Sample.noon Sample.stale
               "Alice" "Carol" "Alice" None "regular") = true.
Proof.
  refine (proj1 (record_race_ignores_status Sample.noon Sample.stale
                   "Alice" "Carol" "Alice" None "regular" _ _
                   eq_refl eq_refl eq_refl eq_refl _) _).
  - repeat constructor.
  - split; reflexivity.
Defined.

(** Bob is stored as ACTIVE with three losses: he is refused. *)
Example stale_active_driver_is_refused :
  record_race Sample.noon Sample.stale "Alice" "Bob" "Alice" None "regular"
  = Returned Sample.stale (false, "Eliminated drivers cannot race").
Proof. reflexivity. Qed.

End RaceClaimsExamples.

(** ** Totals of wins and losses *)

Section Totals.
Import TournamentManager.

Lemma sum_map_set {V} (f : V -> Z) k v v' (d : PyDict.t V) :
  PyDict.get k d = Some v ->
  sum (map f (PyDict.values (PyDict.set k v' d)))
  = sum (map f (PyDict.values d)) - f v + f v'.
Proof.
  induction d as [|[k0 v0] r IH]; simpl; [discriminate|].
  destruct (String.eqb_spec k k0) as [->|Hne]; simpl.
  - intros [= ->]. lia.
  - intros H. rewrite (IH H). lia.
Qed.

Lemma update_status_counts d :
  Driver.wins (Driver.update_status d) = Driver.wins d
  /\ Driver.losses (Driver.update_status d) = Driver.losses d.
Proof.
  unfold Driver.update_status. destruct (Driver.is_eliminated d); auto.
Qed.

Lemma add_race_result_counts d rn won :
  Driver.wins (Driver.add_race_result d rn won)
  = Driver.wins d + (if won then 1 else 0)
  /\ Driver.losses (Driver.add_race_result d rn won)
     = Driver.losses d + (if won then 0 else 1).
Proof.
  unfold Driver.add_race_result.
  destruct (update_status_counts
              (if won
               then Driver.mk (Driver.name d) (Driver.division d)
                      (Driver.wins d + 1) (Driver.losses d)
                      (Driver.races d ++ [rn]) (Driver.status d)
               else Driver.mk (Driver.name d) (Driver.division d)
                      (Driver.wins d) (Driver.losses d + 1)
                      (Driver.races d ++ [rn]) (Driver.status d)))
    as [-> ->].
  destruct won; simpl; lia.
Qed.

Lemma apply_result_totals st n rn won st' :
  apply_result st n rn won = Returned st' tt ->
  sum_wins st' = sum_wins st + (if won then 1 else 0)
  /\ sum_losses st' = sum_losses st + (if won then 0 else 1).
Proof.
  unfold apply_result, sum_wins, sum_losses.
  destruct (PyDict.get n (drivers st)) as [d|] eqn:E; [|discriminate].
  intros [= <-]. simpl.
  rewrite (sum_map_set Driver.wins _ _ _ _ E).
  rewrite (sum_map_set Driver.losses _ _ _ _ E).
  destruct (add_race_result_counts d rn won) as [-> ->]. lia.
Qed.

Lemma record_losers_totals names : forall st w st',
  record_losers st w names = Returned st' tt ->
  sum_wins st' = sum_wins st
  /\ sum_losses st' = sum_losses st
                      + len (filter (fun n => negb (String.eqb n w)) names).
Proof.
  unfold len.
  induction names as [|n rest IH]; intros st w st'; simpl.
  - intros [= <-]. lia.
  - destruct (String.eqb n w); simpl; [apply IH|].
    destruct (apply_result st n (race_counter st) false) as [st1 []|] eqn:E;
      [|discriminate].
    intros H. apply IH in H. apply apply_result_totals in E. lia.
Qed.

Lemma recorded_totals now st d1 d2 w d3 ty a st' ok msg :
  recorded now st d1 d2 w d3 ty a = Returned st' (ok, msg) ->
  sum_wins st' = sum_wins st + 1
  /\ sum_losses st' = sum_losses st
       + len (filter (fun n => negb (String.eqb n w))
                     (racing_drivers d1 d2 d3)).
Proof.
  unfold recorded.
  destruct (apply_result _ w _ true) as [st2 []|] eqn:E1; [|discriminate].
  destruct (record_losers st2 w _) as [st3 []|] eqn:E2; [|discriminate].
  intros [= <- _ _].
  apply apply_result_totals in E1. apply record_losers_totals in E2.
  unfold sum_wins, sum_losses, logged in *. simpl in E1. lia.
Qed.

(** One call on a table that holds all its participants: it returns, keeps
    the keys, and moves the totals only when it succeeds. *)
Lemma call_totals st c :
  closed st c ->
  let o := call st c in
  raises o = false
  /\ PyDict.keys (drivers (outcome_state o)) = PyDict.keys (drivers st)
  /\ sum_wins (outcome_state o)
     = sum_wins st + (if succeeded o then 1 else 0)
  /\ sum_losses (outcome_state o)
     = sum_losses st + (if succeeded o then loser_slots c else 0).
Proof.
  intros Hc. unfold call, closed, participants, loser_slots in *. simpl.
  destruct (record_race_verdict (c_now c) st (c_driver1 c) (c_driver2 c)
              (c_winner c) (c_driver3 c) (c_race_type c))
    as [(m & _ & ->)|(a & b & Hv & _ & _ & ->)].
  - simpl. repeat split; lia.
  - assert (Hw : mem (c_winner c)
                   (racing_drivers (c_driver1 c) (c_driver2 c)
                      (c_driver3 c)) = true)
      by (inversion Hv; assumption).
    destruct (recorded_closed (c_now c) st _ _ _ _ (c_race_type c) a Hc Hw)
      as (st' & msg & E & Hk).
    pose proof (recorded_totals _ _ _ _ _ _ _ _ _ _ _ E) as [Hwins Hloss].
    rewrite E. simpl. repeat split; assumption.
Qed.

Lemma closed_same_keys st st' c :
  PyDict.keys (drivers st') = PyDict.keys (drivers st) ->
  closed st c -> closed st' c.
Proof.
  intros Hk. unfold closed. apply Forall_impl.
  intros n. now apply contains_same_keys.
Qed.

Lemma run_totals calls : forall st,
  Forall (closed st) calls ->
  sum_wins (fst (run st calls)) = sum_wins st + len (snd (run st calls))
  /\ sum_losses (fst (run st calls))
     = sum_losses st + sum (map loser_slots (snd (run st calls))).
Proof.
  unfold len.
  induction calls as [|c rest IH]; intros st Hall; simpl.
  - lia.
  - inversion Hall as [|? ? Hc Hrest]; subst.
    destruct (call_totals st c Hc) as (_ & Hk & Hw & Hl).
    specialize (IH (outcome_state (call st c))).
    destruct (run (outcome_state (call st c)) rest) as [final done] eqn:E.
    simpl in *.
    destruct IH as [IHw IHl].
    { eapply Forall_impl; [|exact Hrest].
      intros x. now apply closed_same_keys. }
    destruct (succeeded (call st c)); simpl; lia.
Qed.

Lemma fresh_totals st :
  fresh_records st -> sum_wins st = 0 /\ sum_losses st = 0.
Proof.
  unfold fresh_records, sum_wins, sum_losses.
  induction (PyDict.values (drivers st)) as [|d r IH]; simpl; [auto|].
  intros H. inversion H as [|? ? [Hw Hl] Hr]; subst.
  destruct (IH Hr). lia.
Qed.

(** A recorded race has its winner among its participants. *)
Lemma run_winner_participates calls : forall st,
  Forall (fun c => In (c_winner c) (participants c)) (snd (run st calls)).
Proof.
  induction calls as [|c rest IH]; intros st; simpl; [constructor|].
  specialize (IH (outcome_state (call st c))).
  destruct (run (outcome_state (call st c)) rest) as [final done].
  cbn [snd] in *.
  destruct (succeeded (call st c)) eqn:Es; [|assumption].
  constructor; [|assumption].
  unfold call in Es.
  destruct (record_race_verdict (c_now c) st (c_driver1 c) (c_driver2 c)
              (c_winner c) (c_driver3 c) (c_race_type c))
    as [(m & _ & E)|(a & b & Hv & _)].
  - rewrite E in Es. discriminate.
  - inversion Hv as [| | | |? ? _ _ Hmem _ _ _].
    exact (proj1 (mem_In _ _) Hmem).
Qed.

Lemma filter_out_one_nat (w : string) l :
  NoDup l -> In w l ->
  S (List.length (filter (fun n => negb (String.eqb n w)) l))
  = List.length l.
Proof.
  induction l as [|x r IH]; simpl; [tauto|].
  intros Hnd Hin. inversion Hnd as [|? ? Hx Hr]; subst.
  destruct (String.eqb_spec x w) as [->|Hne]; simpl.
  - f_equal. f_equal.
    apply forallb_filter_id. apply forallb_forall. intros y Hy.
    destruct (String.eqb_spec y w); [subst; contradiction | reflexivity].
  - destruct Hin as [->|Hin]; [congruence|].
    f_equal. exact (IH Hr Hin).
Qed.

Lemma filter_out_one (w : string) l :
  NoDup l -> In w l ->
  len (filter (fun n => negb (String.eqb n w)) l) = len l - 1.
Proof.
  intros Hnd Hin. unfold len.
  rewrite <- (filter_out_one_nat w l Hnd Hin). lia.
Qed.

Lemma sum_cons x l : sum (x :: l) = x + sum l.
Proof. reflexivity. Qed.

Lemma loser_slots_distinct done :
  Forall (fun c => In (c_winner c) (participants c)) done ->
  Forall (fun c => NoDup (participants c)) done ->
  sum (map loser_slots done) = slots done - len done.
Proof.
  unfold slots.
  induction 1 as [|c r Hin _ IH]; intros Hnd; [reflexivity|].
  inversion Hnd as [|? ? Hc Hr]; subst.
  rewrite !map_cons, !sum_cons, (IH Hr).
  unfold loser_slots. rewrite (filter_out_one _ _ Hc Hin).
  unfold len. cbn [List.length]. rewrite (Nat2Z.inj_succ (List.length r)).
  lia.
Qed.

End Totals.

Section TotalsClaim.
Import TournamentManager.

(** C8 (amended). Start from a table in which nobody has a win or a loss and
    make any series of [record_race] calls whose participants are all in
    the table.  Then the wins add up to the number N of recorded races, and
    the losses add up to the number of participant slots not held by the
    winner's name; when no recorded race lists a name twice, that is the
    number of participant slots minus N. *)
Theorem totals_after_races st calls :
  fresh_records st ->
  Forall (closed st) calls ->
  let final := fst (run st calls) in
  let done := snd (run st calls) in
  sum_wins final = len done
  /\ sum_losses final = sum (map loser_slots done)
  /\ (Forall (fun c => NoDup (participants c)) done ->
      sum_losses final = slots done - len done).
Proof.
  intros Hfresh Hclosed final done. subst final done.
  destruct (fresh_totals st Hfresh) as [Hw0 Hl0].
  destruct (run_totals calls st Hclosed) as [Hw Hl].
  repeat split.
  - lia.
  - lia.
  - intros Hnd. rewrite Hl, Hl0.
    rewrite (loser_slots_distinct _ (run_winner_participates calls st) Hnd).
    lia.
Qed.

(** Three races of Alice against Bob: three wins, and 6 - 3 losses. *)
Lemma totals_after_races_witness :
  sum_wins Sample.bob_out = 3
  /\ sum_losses Sample.bob_out
     = slots (repeat Sample.alice_beats_bob 3) - 3.
Proof.
  assert (Hfresh : fresh_records Sample.two_drivers)
    by (repeat constructor).
  assert (Hclosed : Forall (closed Sample.two_drivers)
                      (repeat Sample.alice_beats_bob 3))
    by (repeat constructor).
  destruct (totals_after_races Sample.two_drivers
              (repeat Sample.alice_beats_bob 3) Hfresh Hclosed)
    as (Hw & _ & Hl).
  split.
  - exact Hw.
  - apply Hl. vm_compute.
    repeat constructor; simpl; intuition discriminate.
Defined.

(** C8 as worded fails: a driver entered as both sides of a race wins it,
    and nobody gets the loss. *)
Lemma self_race_breaks_totals : ~ totals_as_specified.
Proof.
  intros H.
  specialize (H Sample.one_driver [Sample.alice_alone]).
  assert (Hfresh : fresh_records Sample.one_driver)
    by (repeat constructor).
  assert (Hclosed : Forall (closed Sample.one_driver) [Sample.alice_alone])
    by (repeat constructor).
  specialize (H Hfresh Hclosed).
  vm_compute in H. destruct H as [_ H]. discriminate.
Qed.

(** What that race does: it is recorded as race 1, Alice gets a win and
    one entry in her race list, and no loss is counted anywhere. *)
Example self_race_outcome :
  call Sample.one_driver Sample.alice_alone
  = Returned
      (mk [("Alice", Driver.mk "Alice" "OPEN" 1 0 [1] DriverStatus.ACTIVE)]
          [Race.mk 1 "Alice" "Alice" "Alice" "OPEN" Sample.noon None
                   "regular"]
          1 (divisions init))
      (true, "Race 1: Alice wins!").
Proof. reflexivity. Qed.

End TotalsClaim.

(** ** Sorting *)

Section ListSortFacts.
Context {A K : Type} (key : A -> K) (lt : K -> K -> bool).

Hypothesis lt_asym : forall a b, lt a b = true -> lt b a = false.
Hypothesis not_lt_trans :
  forall a b c, lt b a = false -> lt c b = false -> lt c a = false.








End ListSortFacts.

(** ** The order on sort keys *)



Section SortKeyOrder.
Import TournamentManager.




End SortKeyOrder.

Section SortKeyReading.
Import TournamentManager.







End SortKeyReading.

Section RankingsClaim.
Import TournamentManager.




Example stale_rankings :
  map (fun r => (position r, name r, status r, wins r, losses r))
      (get_rankings Sample.stale None)
  = [(1, "Carol", "INACTIVE", 0, 0);
     (2, "Bob", "ACTIVE", 0, 3);
     (3, "Alice", "ELIMINATED", 5, 0)].
Proof. vm_compute. reflexivity. Qed.

End RankingsClaim.

(** ** Snapshots *)

Section Comprehensions.
Context {V W : Type}.

Lemma fold_set_fresh (f : V -> W) (d : PyDict.t V) : forall acc,
  NoDup (PyDict.keys acc ++ PyDict.keys d) ->
  fold_left (fun acc kv => PyDict.set (fst kv) (f (snd kv)) acc) d acc
  = acc ++ map (on_values f) d.
Proof.
  induction d as [|[k v] r IH]; intros acc Hnd; simpl.
  - now rewrite app_nil_r.
  - assert (Hk : PyDict.contains k acc = false).
    { destruct (PyDict.contains k acc) eqn:E; [|reflexivity].
      apply contains_keys in E. apply NoDup_remove_2 in Hnd.
      exfalso. apply Hnd. apply in_or_app. now left. }
    rewrite (set_absent _ _ _ Hk), IH.
    + now rewrite <- app_assoc.
    + unfold PyDict.keys in *. rewrite map_app. simpl.
      rewrite <- app_assoc. exact Hnd.
Qed.

Lemma comprehension_map (f : V -> W) (d : PyDict.t V) :
  NoDup (PyDict.keys d) ->
  PyDict.comprehension f d = map (on_values f) d.
Proof.
  intros Hnd. unfold PyDict.comprehension.
  now rewrite fold_set_fresh.
Qed.

Lemma keys_on_values (f : V -> W) (d : PyDict.t V) :
  PyDict.keys (map (on_values f) d) = PyDict.keys d.
Proof.
  unfold PyDict.keys. rewrite map_map. reflexivity.
Qed.

(** A comprehension that returns has built one entry per entry, under the
    same key, in the same order. *)
Lemma comprehension_r_entries (f : V -> result W) (d : PyDict.t V) :
  forall acc out,
    NoDup (PyDict.keys acc ++ PyDict.keys d) ->
    PyDict.comprehension_r f d acc = inr out ->
    exists built,
      out = acc ++ built
      /\ Forall2 (fun kv kw => fst kw = fst kv /\ f (snd kv) = inr (snd kw))
                 d built.
Proof.
  induction d as [|[k v] r IH]; intros acc out Hnd; simpl.
  - intros [= <-]. exists []. split; [now rewrite app_nil_r | constructor].
  - destruct (f v) as [e|w] eqn:E; simpl; [discriminate|].
    assert (Hk : PyDict.contains k acc = false).
    { destruct (PyDict.contains k acc) eqn:Ek; [|reflexivity].
      apply contains_keys in Ek. apply NoDup_remove_2 in Hnd.
      exfalso. apply Hnd. apply in_or_app. now left. }
    rewrite (set_absent _ _ _ Hk). intros H.
    apply IH in H.
    + destruct H as (built & -> & HF).
      exists ((k, w) :: built). split; [now rewrite <- app_assoc|].
      constructor; [split; [reflexivity | exact E] | exact HF].
    + unfold PyDict.keys in *. rewrite map_app. simpl.
      rewrite <- app_assoc. exact Hnd.
Qed.

(** Whatever it is given, a comprehension builds a table without a
    repeated key. *)
Lemma comprehension_r_NoDup (f : V -> result W) (d : PyDict.t V) :
  forall acc out,
    NoDup (PyDict.keys acc) ->
    PyDict.comprehension_r f d acc = inr out ->
    NoDup (PyDict.keys out).
Proof.
  induction d as [|[k v] r IH]; intros acc out Hnd; simpl.
  - now intros [= <-].
  - destruct (f v) as [e|w]; simpl; [discriminate|].
    apply IH. now apply NoDup_keys_set.
Qed.

End Comprehensions.

Section SnapshotImport.
Import TournamentManager.

Lemma driver_from_dict_imported x d :
  Driver.from_dict x = inr d -> driver_imported x d.
Proof.
  unfold Driver.from_dict, driver_imported, subscript, get_default.
  destruct x as [n dv w l rs s]; simpl.
  destruct n as [n|]; simpl; [|discriminate].
  destruct dv as [dv|]; simpl; [|discriminate].
  intros [= <-]. unfold Driver.init. simpl.
  repeat split.
  destruct rs as [[|r0 rs]|]; reflexivity.
Qed.

Lemma race_from_kwargs_imported now x r :
  Race.from_kwargs now x = inr r -> race_imported now x r.
Proof.
  unfold Race.from_kwargs, race_imported, Race.required, get_default.
  destruct x as [n a b w dv ts d3 ty extra]; simpl.
  destruct extra; [|discriminate].
  destruct n; simpl; [|discriminate].
  destruct a; simpl; [|discriminate].
  destruct b; simpl; [|discriminate].
  destruct w; simpl; [|discriminate].
  destruct dv; simpl; [|discriminate].
  intros [= <-]. unfold Race.init. simpl.
  repeat split.
  destruct ts as [[|c ts]|]; reflexivity.
Qed.

Lemma races_from_imported clock l : forall i rs,
  races_from clock i l = inr rs ->
  List.length rs = List.length l
  /\ forall j x, nth_error l j = Some x ->
                 exists r, nth_error rs j = Some r
                           /\ race_imported (clock (i + j)%nat) x r.
Proof.
  induction l as [|x rest IH]; intros i rs; simpl.
  - intros [= <-]. split; [reflexivity|]. intros [|j] y; discriminate.
  - destruct (Race.from_kwargs (clock i) x) as [e|r] eqn:E; simpl;
      [discriminate|].
    destruct (races_from clock (S i) rest) as [e|rs'] eqn:E'; simpl;
      [discriminate|].
    intros [= <-]. destruct (IH _ _ E') as [Hlen Hnth].
    split; [simpl; now f_equal|].
    intros [|j] y; simpl.
    + intros [= <-]. exists r. split; [reflexivity|].
      rewrite Nat.add_0_r. now apply race_from_kwargs_imported.
    + intros Hy. destruct (Hnth j y Hy) as (r' & Hr' & Himp).
      exists r'. split; [exact Hr'|].
      now rewrite Nat.add_succ_r.
Qed.

(** C7. When [from_dict] accepts a snapshot, the table it builds has one
    driver per serialized driver, under the same key and in the same order,
    with absent wins and losses read as 0, absent races as the empty list
    and an absent status as ACTIVE; the race log it builds has one race per
    serialized race, made by the constructor from the serialized fields;
    and the counter is the supplied one or, without one, the number of
    imported races. *)
Theorem from_dict_defaults clock st x st' :
  from_dict clock st x = Returned st' tt ->
  exists ds rs,
    d_drivers x = Some ds
    /\ d_races x = Some rs
    /\ (NoDup (PyDict.keys ds) ->
        Forall2 (fun kx kd => fst kd = fst kx
                              /\ driver_imported (snd kx) (snd kd))
                ds (drivers st'))
    /\ List.length (races st') = List.length rs
    /\ (forall i rx, nth_error rs i = Some rx ->
          exists r, nth_error (races st') i = Some r
                    /\ race_imported (clock i) rx r)
    /\ race_counter st'
       = match d_race_counter x with
         | Some n => n
         | None => len (races st')
         end
    /\ divisions st' = divisions st.
Proof.
  unfold from_dict, subscript.
  destruct (d_drivers x) as [ds|]; simpl; [|discriminate].
  destruct (PyDict.comprehension_r Driver.from_dict ds PyDict.empty)
    as [e|new_drivers] eqn:Ed; [discriminate|].
  destruct (d_races x) as [rs|]; simpl; [|discriminate].
  destruct (races_from clock 0 rs) as [e|new_races] eqn:Er; [discriminate|].
  intros [= <-]. exists ds, rs. simpl.
  destruct (races_from_imported _ _ _ _ Er) as [Hlen Hnth].
  repeat split; try assumption.
  intros Hnd.
  destruct (comprehension_r_entries Driver.from_dict ds PyDict.empty
              new_drivers Hnd Ed) as (built & -> & HF).
  simpl. eapply Forall2_impl; [|exact HF].
  intros kx kd [Hk Hd]. split; [exact Hk|].
  now apply driver_from_dict_imported.
Qed.

End SnapshotImport.

(** ** Every state of a running manager is well formed *)

Section WellFormed.
Import TournamentManager.

Lemma race_init_timestamp now n a b w dv ts d3 ty :
  now <> "" -> Race.timestamp (Race.init now n a b w dv ts d3 ty) <> "".
Proof.
  intros Hnow. unfold Race.init, Race.truthy. simpl.
  destruct ts as [ts|]; [|exact Hnow].
  destruct (String.eqb_spec ts ""); simpl; assumption.
Qed.

Lemma wf_with_drivers st ds :
  well_formed st -> NoDup (PyDict.keys ds) ->
  well_formed (with_drivers st ds).
Proof. intros [_ Hr] Hd. split; assumption. Qed.

Lemma wf_add_driver st name division :
  well_formed st -> well_formed (fst (add_driver st name division)).
Proof.
  intros Hwf. unfold add_driver.
  destruct (_ || _)%bool; [exact Hwf|].
  destruct (negb _); [exact Hwf|]. cbn [fst].
  apply wf_with_drivers; [exact Hwf|].
  apply NoDup_keys_set. apply Hwf.
Qed.

Lemma wf_apply_result st n rn won :
  well_formed st -> well_formed (outcome_state (apply_result st n rn won)).
Proof.
  intros Hwf. unfold apply_result.
  destruct (PyDict.get n (drivers st)); cbn [outcome_state]; [|exact Hwf].
  apply wf_with_drivers; [exact Hwf|].
  apply NoDup_keys_set. apply Hwf.
Qed.

Lemma wf_record_losers names : forall st w,
  well_formed st -> well_formed (outcome_state (record_losers st w names)).
Proof.
  induction names as [|n rest IH]; intros st w Hwf; simpl; [exact Hwf|].
  destruct (String.eqb n w); [now apply IH|].
  pose proof (wf_apply_result st n (race_counter st) false Hwf) as H.
  destruct (apply_result st n (race_counter st) false) as [st' []|st' e];
    cbn [outcome_state] in *; [now apply IH | exact H].
Qed.

Lemma wf_record_race now st d1 d2 w d3 ty :
  now <> "" -> well_formed st ->
  well_formed (outcome_state (record_race now st d1 d2 w d3 ty)).
Proof.
  intros Hnow Hwf.
  destruct (record_race_verdict now st d1 d2 w d3 ty)
    as [(msg & _ & ->)|(a & b & _ & _ & _ & ->)]; [exact Hwf|].
  unfold recorded. generalize (racing_drivers d1 d2 d3) as names.
  intros names.
  assert (Hlog : well_formed (logged now st d1 d2 w d3 ty a)).
  { destruct Hwf as [Hd Hr]. split; [exact Hd|]. simpl.
    apply Forall_app. split; [exact Hr|].
    constructor; [|constructor]. now apply race_init_timestamp. }
  pose proof (wf_apply_result _ w (race_counter st + 1) true Hlog) as H1.
  destruct (apply_result _ w _ true) as [st2 []|st2 e];
    cbn [outcome_state] in *; [|exact H1].
  pose proof (wf_record_losers names st2 w H1) as H2.
  destruct (record_losers st2 w names) as [st3 []|st3 e];
    cbn [outcome_state] in *; exact H2.
Qed.

Lemma races_from_timestamps clock l : forall i rs,
  (forall j, clock j <> "") ->
  races_from clock i l = inr rs ->
  Forall (fun r => Race.timestamp r <> "") rs.
Proof.
  induction l as [|x rest IH]; intros i rs Hclock; simpl.
  - intros [= <-]. constructor.
  - destruct (Race.from_kwargs (clock i) x) as [e|r] eqn:E; simpl;
      [discriminate|].
    destruct (races_from clock (S i) rest) as [e|rs'] eqn:E'; simpl;
      [discriminate|].
    intros [= <-]. constructor; [|now apply (IH (S i))].
    unfold Race.from_kwargs, bind, Race.required in E.
    destruct (Race.d_unexpected x); [|discriminate].
    destruct (Race.d_race_number x); [|discriminate].
    destruct (Race.d_driver1 x); [|discriminate].
    destruct (Race.d_driver2 x); [|discriminate].
    destruct (Race.d_winner x); [|discriminate].
    destruct (Race.d_division x); [|discriminate].
    injection E as <-. apply race_init_timestamp. apply Hclock.
Qed.

Lemma wf_from_dict clock st x :
  (forall i, clock i <> "") -> well_formed st ->
  well_formed (outcome_state (from_dict clock st x)).
Proof.
  intros Hclock Hwf. unfold from_dict.
  destruct (ds <- subscript "drivers" (d_drivers x) ;;
            PyDict.comprehension_r Driver.from_dict ds PyDict.empty)
    as [e|new_drivers] eqn:Ed; [exact Hwf|].
  assert (Hnd : NoDup (PyDict.keys new_drivers)).
  { unfold bind, subscript in Ed.
    destruct (d_drivers x) as [ds|]; [|discriminate].
    eapply comprehension_r_NoDup; [|exact Ed]. constructor. }
  destruct (rs <- subscript "races" (d_races x) ;; races_from clock 0 rs)
    as [e|new_races] eqn:Er; cbn [outcome_state].
  - now apply wf_with_drivers.
  - split; [exact Hnd|]. simpl.
    unfold bind, subscript in Er.
    destruct (d_races x) as [rs|]; [|discriminate].
    eapply races_from_timestamps; eassumption.
Qed.

Lemma wf_update_driver st driver_name body :
  well_formed st -> well_formed (fst (Api.update_driver st driver_name body)).
Proof.
  intros Hwf. unfold Api.update_driver.
  destruct body as [data|]; [|exact Hwf].
  destruct (_ || _)%bool; [exact Hwf|].
  destruct (negb (mem _ _)); [exact Hwf|].
  destruct (negb (PyDict.contains driver_name _)); [exact Hwf|].
  destruct (negb (String.eqb _ driver_name) && _)%bool; [exact Hwf|].
  destruct (PyDict.get driver_name (drivers st)) as [driver|]; [|exact Hwf].
  destruct (negb (String.eqb _ driver_name)); cbn [fst];
    apply wf_with_drivers; try exact Hwf;
    repeat first [apply NoDup_keys_set | apply NoDup_keys_del];
    apply Hwf.
Qed.

Lemma wf_delete_driver st driver_name :
  well_formed st -> well_formed (fst (Api.delete_driver st driver_name)).
Proof.
  intros Hwf. unfold Api.delete_driver.
  destruct (negb _); [exact Hwf|]. cbn [fst].
  apply wf_with_drivers; [exact Hwf|]. apply NoDup_keys_del. apply Hwf.
Qed.

Lemma reachable_well_formed st : reachable st -> well_formed st.
Proof.
  induction 1.
  - split; constructor.
  - now apply wf_add_driver.
  - now apply wf_record_race.
  - now apply wf_from_dict.
  - now apply wf_update_driver.
  - now apply wf_delete_driver.
Qed.

End WellFormed.

(** ** Export, then import *)

Section RoundTrip.
Import TournamentManager.

Lemma driver_round_trip d : Driver.from_dict (Driver.to_dict d) = inr d.
Proof.
  destruct d as [n dv w l rs s]. unfold Driver.from_dict, Driver.to_dict.
  simpl. unfold Driver.init. destruct rs; reflexivity.
Qed.

Lemma race_round_trip now r :
  Race.timestamp r <> "" -> Race.from_kwargs now (Race.to_dict r) = inr r.
Proof.
  destruct r as [n a b w dv ts d3 ty]. simpl. intros Hts.
  unfold Race.from_kwargs, Race.to_dict. simpl.
  unfold Race.init, Race.truthy.
  destruct (String.eqb_spec ts ""); [contradiction | reflexivity].
Qed.

Lemma drivers_round_trip (ds : PyDict.t Driver.t) : forall acc,
  NoDup (PyDict.keys acc ++ PyDict.keys ds) ->
  PyDict.comprehension_r Driver.from_dict
    (map (on_values Driver.to_dict) ds) acc
  = inr (acc ++ ds).
Proof.
  induction ds as [|[k d] r IH]; intros acc Hnd.
  - simpl. now rewrite app_nil_r.
  - cbn [map on_values fst snd PyDict.comprehension_r].
    rewrite driver_round_trip. cbn [bind].
    assert (Hk : PyDict.contains k acc = false).
    { destruct (PyDict.contains k acc) eqn:Ek; [|reflexivity].
      apply contains_keys in Ek. apply NoDup_remove_2 in Hnd.
      exfalso. apply Hnd. apply in_or_app. now left. }
    rewrite (set_absent _ _ _ Hk), IH.
    + now rewrite <- app_assoc.
    + unfold PyDict.keys in *. rewrite map_app. simpl.
      rewrite <- app_assoc. exact Hnd.
Qed.

Lemma races_round_trip clock rs : forall i,
  Forall (fun r => Race.timestamp r <> "") rs ->
  races_from clock i (map Race.to_dict rs) = inr rs.
Proof.
  induction rs as [|r rest IH]; intros i Hts; [reflexivity|].
  inversion Hts as [|? ? Hr Hrest]; subst.
  cbn [map races_from].
  rewrite (race_round_trip _ _ Hr). cbn [bind].
  rewrite (IH (S i) Hrest). reflexivity.
Qed.

Lemma reachable_run calls : forall st,
  reachable st -> Forall (fun c => c_now c <> "") calls ->
  reachable (fst (run st calls)).
Proof.
  induction calls as [|c rest IH]; intros st Hst Hnow; [exact Hst|].
  inversion Hnow as [|? ? Hc Hrest]; subst.
  cbn [run].
  specialize (IH (outcome_state (call st c))).
  destruct (run (outcome_state (call st c)) rest) as [final done].
  cbn [fst] in *. apply IH; [|exact Hrest].
  unfold call. now apply reach_record_race.
Qed.

(** C6. For every state of a running manager: importing its exported
    snapshot into any manager returns and leaves that manager with the
    same table of drivers, the same race log and the same counter; and the
    same snapshot without its [race_counter] key gives the same table and
    log, with the counter set to the number of races. *)
Theorem snapshot_round_trip st :
  reachable st ->
  forall clock m,
    from_dict clock m (to_dict st)
    = Returned (mk (drivers st) (races st) (race_counter st) (divisions m))
               tt
    /\ from_dict clock m
         (mk_data (d_drivers (to_dict st)) (d_races (to_dict st)) None)
       = Returned (mk (drivers st) (races st) (len (races st))
                      (divisions m))
                  tt.
Proof.
  intros Hreach clock m.
  destruct (reachable_well_formed st Hreach) as [Hkeys Hts].
  unfold from_dict, to_dict. cbn [d_drivers d_races d_race_counter].
  cbn [subscript bind].
  rewrite (comprehension_map Driver.to_dict _ Hkeys).
  rewrite (drivers_round_trip (drivers st) PyDict.empty Hkeys).
  rewrite (races_round_trip clock (races st) 0 Hts).
  split; reflexivity.
Qed.

Lemma bob_out_reachable : reachable Sample.bob_out.
Proof.
  apply reachable_run.
  - unfold Sample.two_drivers.
    apply reach_add_driver. apply reach_add_driver. apply reach_init.
  - repeat constructor; discriminate.
Defined.

(** The tournament in which Bob has been eliminated survives export and
    import. *)
Lemma snapshot_round_trip_witness :
  from_dict Sample.at_noon init (to_dict Sample.bob_out)
  = Returned (mk (drivers Sample.bob_out) (races Sample.bob_out)
                 (race_counter Sample.bob_out) (divisions init))
             tt.
Proof.
  exact (proj1 (snapshot_round_trip Sample.bob_out bob_out_reachable
                  Sample.at_noon init)).
Defined.

(** A snapshot with missing keys is accepted; the counter it leaves is the
    number of imported races. *)
Lemma from_dict_defaults_witness :
  let st' := outcome_state
               (from_dict Sample.at_noon init Sample.sparse_snapshot) in
  race_counter st' = len (races st')
  /\ PyDict.get "Dan" (drivers st')
     = Some (Driver.mk "Dan" "OPEN" 0 0 [] DriverStatus.ACTIVE).
Proof.
  intros st'.
  destruct (from_dict_defaults Sample.at_noon init Sample.sparse_snapshot
              st' eq_refl)
    as (ds & rs & _ & _ & _ & _ & _ & Hc & _).
  split; [exact Hc | reflexivity].
Defined.

Example sparse_snapshot_imported :
  from_dict Sample.at_noon init Sample.sparse_snapshot
  = Returned
      (mk [("Dan", Driver.mk "Dan" "OPEN" 0 0 [] DriverStatus.ACTIVE);
           ("Eve", Driver.mk "Eve" "DAMES" 2 0 [1; 2] DriverStatus.ACTIVE)]
          [Race.mk 1 "Dan" "Eve" "Eve" "OPEN" Sample.noon None "regular"]
          1 (divisions init))
      tt.
Proof. reflexivity. Qed.

(** The table with stale statuses is what an import leaves behind. *)
Example stale_is_imported :
  from_dict Sample.at_noon init Sample.stale_snapshot
  = Returned Sample.stale tt.
Proof. reflexivity. Qed.

End RoundTrip.

(** ** Renaming a driver and changing its division *)

Section UpdateDriver.
Import TournamentManager.

Lemma update_driver_cases tournament driver_name data :
  let new_name := strip (get_default (Api.u_name data) "") in
  let new_division := strip (get_default (Api.u_division data) "") in
  let reply := Api.update_driver tournament driver_name (Some data) in
  (update_refused tournament driver_name new_name new_division
   /\ exists msg, reply = (tournament, (false, msg)))
  \/ (~ update_refused tournament driver_name new_name new_division
      /\ exists driver,
           PyDict.get driver_name (drivers tournament) = Some driver
           /\ reply
              = (with_drivers tournament
                   (updated_table (drivers tournament) driver_name
                      new_name new_division driver),
                 (true, "Driver updated successfully"))).
Proof.
  intros new_name new_division reply. subst reply.
  unfold Api.update_driver, update_refused, updated_table.
  fold new_name. fold new_division.
  destruct (String.eqb_spec new_name "") as [En|En]; cbn [orb].
  { left. split; [auto | eauto]. }
  destruct (String.eqb_spec new_division "") as [Ed|Ed]; cbn [orb].
  { left. split; [auto | eauto]. }
  destruct (mem new_division (divisions tournament)) eqn:Em; cbn [negb].
  2:{ left. split; [auto | eauto]. }
  destruct (PyDict.contains driver_name (drivers tournament)) eqn:Ec;
    cbn [negb].
  2:{ left. split; [auto 6 | eauto]. }
  destruct (String.eqb_spec new_name driver_name) as [Es|Es];
    cbn [negb andb].
  - apply contains_get in Ec. destruct Ec as [driver Hd]. rewrite Hd.
    right. split.
    + intros [H|[H|[H|[H|[H _]]]]]; contradiction || discriminate.
    + exists driver. split; reflexivity.
  - destruct (PyDict.contains new_name (drivers tournament)) eqn:Ex.
    { left. split; [auto 8 | eauto]. }
    apply contains_get in Ec. destruct Ec as [driver Hd]. rewrite Hd.
    right. split.
    + intros [H|[H|[H|[H|[_ H]]]]]; contradiction || discriminate.
    + exists driver. split; reflexivity.
Qed.

(** C9. A request that fails a check (trimmed name or division empty,
    division not in the fixed set, driver not in the table, or a new name
    that is already a key) is refused and changes nothing.  A request that
    succeeds leaves, under the new name, the driver's record with the new
    division and with its wins, losses, races and status as they were (its
    name field is the new name when the name changed, and is left alone
    otherwise); when the name changed the old key is gone; every other
    entry, the race log and the counter are untouched; and when the name
    did not change the table keeps its keys in their order. *)
Theorem update_driver_effect tournament driver_name data :
  NoDup (PyDict.keys (drivers tournament)) ->
  let new_name := strip (get_default (Api.u_name data) "") in
  let new_division := strip (get_default (Api.u_division data) "") in
  let reply := Api.update_driver tournament driver_name (Some data) in
  let after := fst reply in
  (update_refused tournament driver_name new_name new_division ->
   after = tournament /\ fst (snd reply) = false)
  /\ (fst (snd reply) = true ->
      exists driver,
        PyDict.get driver_name (drivers tournament) = Some driver
        /\ PyDict.get new_name (drivers after)
           = Some (Driver.mk
                     (if String.eqb new_name driver_name
                      then Driver.name driver else new_name)
                     new_division (Driver.wins driver)
                     (Driver.losses driver) (Driver.races driver)
                     (Driver.status driver))
        /\ (new_name <> driver_name ->
            PyDict.get driver_name (drivers after) = None)
        /\ (forall k, k <> driver_name -> k <> new_name ->
              PyDict.get k (drivers after)
              = PyDict.get k (drivers tournament))
        /\ (new_name = driver_name ->
            PyDict.keys (drivers after) = PyDict.keys (drivers tournament))
        /\ races after = races tournament
        /\ race_counter after = race_counter tournament).
Proof.
  intros Hnd new_name new_division reply after. subst after reply.
  pose proof (update_driver_cases tournament driver_name data) as Hcases.
  cbv zeta in Hcases. fold new_name new_division in Hcases.
  destruct Hcases as [(Href & msg & E)|(Hok & driver & Hd & E)];
    rewrite E; cbn [fst snd].
  - split; [auto | discriminate].
  - split; [intros H; contradiction|]. intros _.
    exists driver. split; [exact Hd|].
    unfold updated_table.
    destruct (String.eqb_spec new_name driver_name) as [Es|Es];
      cbn [with_drivers drivers races race_counter].
    + rewrite Es.
      refine (conj _ (conj _ (conj _ (conj _ (conj eq_refl eq_refl))))).
      * apply get_set_eq.
      * intros H. congruence.
      * intros k Hk _. now apply get_set_ne.
      * intros _. apply keys_set_present. apply contains_get. eauto.
    + refine (conj _ (conj _ (conj _ (conj _ (conj eq_refl eq_refl))))).
      * apply get_set_eq.
      * intros _. rewrite !get_set_ne by congruence.
        now apply get_del_eq.
      * intros k Hk Hk'. rewrite !get_set_ne by assumption.
        now apply get_del_ne.
      * intros H. contradiction.
Qed.

(** Alice is renamed to Al and moved to DAMES; her three wins come along,
    and the key Alice is gone. *)
Lemma update_driver_effect_witness :
  let after := fst (Api.update_driver Sample.bob_out "Alice"
                      (Some (Api.mk_update (Some " Al ") (Some "DAMES")))) in
  PyDict.get "Al" (drivers after)
  = Some (Driver.mk "Al" "DAMES" 3 0 [1; 2; 3] DriverStatus.ACTIVE)
  /\ PyDict.get "Alice" (drivers after) = None.
Proof.
  intros after.
  assert (Hnd : NoDup (PyDict.keys (drivers Sample.bob_out))).
  { vm_compute. repeat constructor; simpl; intuition discriminate. }
  destruct (update_driver_effect Sample.bob_out "Alice"
              (Api.mk_update (Some " Al ") (Some "DAMES")) Hnd)
    as [_ Hok].
  destruct (Hok ltac:(vm_compute; reflexivity))
    as (driver & Hd & Hnew & Hold & _).
  split.
  - vm_compute in Hd. injection Hd as <-. exact Hnew.
  - apply Hold. vm_compute. discriminate.
Defined.

End UpdateDriver.


(** ** The exception that escapes [record_race] *)

Section Exceptions.
Import TournamentManager.

Lemma apply_result_returned_keys st n rn won st' :
  apply_result st n rn won = Returned st' tt ->
  PyDict.keys (drivers st') = PyDict.keys (drivers st).
Proof.
  unfold apply_result.
  destruct (PyDict.get n (drivers st)) as [d|] eqn:E; [|discriminate].
  intros [= <-]. simpl. apply keys_set_present. apply contains_get. eauto.
Qed.

Lemma contains_false_same_keys {V} (d d' : PyDict.t V) n :
  PyDict.keys d' = PyDict.keys d ->
  PyDict.contains n d = false -> PyDict.contains n d' = false.
Proof.
  intros Hk Hn. destruct (PyDict.contains n d') eqn:E; [|reflexivity].
  apply contains_keys in E. rewrite Hk in E. apply contains_keys in E.
  congruence.
Qed.

(** The loop over the participants stops on the first name that is neither
    the winner nor a key of the table. *)
Lemma record_losers_absent names : forall st w n,
  In n names -> n <> w -> PyDict.contains n (drivers st) = false ->
  raises (record_losers st w names) = true.
Proof.
  induction names as [|x rest IH]; intros st w n Hin Hne Hn; [destruct Hin|].
  cbn [record_losers].
  destruct (String.eqb_spec x w) as [->|Hx].
  - destruct Hin as [->|Hin]; [congruence|]. eapply IH; eassumption.
  - destruct (apply_result st x (race_counter st) false) as [st' []|st' e]
      eqn:E; [|reflexivity].
    destruct Hin as [->|Hin].
    + unfold apply_result in E. apply contains_false_get in Hn.
      rewrite Hn in E. discriminate.
    + eapply IH; [exact Hin | exact Hne |].
      eapply contains_false_same_keys; [|exact Hn].
      eapply apply_result_returned_keys; exact E.
Qed.

(** Whenever the four checks pass and the third name is given but is no key
    of the table, [record_race] raises. *)
Lemma record_race_absent_third_raises now st d1 d2 w n ty :
  verdict st d1 d2 w (Some n) None ->
  n <> "" ->
  PyDict.contains n (drivers st) = false ->
  raises (record_race now st d1 d2 w (Some n) ty) = true.
Proof.
  intros Hv Hn Habsent.
  destruct (record_race_verdict now st d1 d2 w (Some n) ty)
    as [(m & Hm & _)|(a & b & _ & _ & _ & ->)].
  { pose proof (verdict_functional _ _ _ _ _ _ _ Hv Hm). discriminate. }
  unfold recorded.
  destruct (apply_result (logged now st d1 d2 w (Some n) ty a) w
              (race_counter st + 1) true) as [st2 []|st2 e] eqn:E;
    [|reflexivity].
  assert (Hw : w <> n).
  { intros ->. unfold apply_result in E. apply contains_false_get in Habsent.
    simpl in E. rewrite Habsent in E. discriminate. }
  assert (Hr : raises (record_losers st2 w (racing_drivers d1 d2 (Some n)))
               = true).
  { apply (record_losers_absent _ st2 w n).
    - unfold racing_drivers, Race.truthy.
      destruct (String.eqb_spec n ""); [contradiction|].
      simpl. auto.
    - congruence.
    - eapply contains_false_same_keys; [|exact Habsent].
      apply apply_result_returned_keys in E. exact E. }
  destruct (record_losers st2 w _); [discriminate | reflexivity].
Qed.

(** C1. A third participant that is not in the table makes [record_race]
    stop on [KeyError]: by then the counter has moved, the race is in the
    log and the winner has her win. *)
Theorem record_race_absent_third_driver_raises :
  record_race Sample.noon Sample.two_drivers
              "Alice" "Bob" "Alice" (Some "Zed") "championship"
  = Raised
      (mk [("Alice", Driver.mk "Alice" "OPEN" 1 0 [1] DriverStatus.ACTIVE);
           ("Bob", Driver.mk "Bob" "OPEN" 0 1 [1] DriverStatus.ACTIVE)]
          [Race.mk 1 "Alice" "Bob" "Alice" "OPEN" Sample.noon (Some "Zed")
                   "championship"]
          1 (divisions init))
      (KeyError "Zed").
Proof. reflexivity. Qed.

(** The same when the absent third participant is named as the winner:
    the exception comes from the winner's lookup. *)
Example record_race_absent_winner_raises :
  record_race Sample.noon Sample.two_drivers
              "Alice" "Bob" "Zed" (Some "Zed") "championship"
  = Raised
      (mk (drivers Sample.two_drivers)
          [Race.mk 1 "Alice" "Bob" "Zed" "OPEN" Sample.noon (Some "Zed")
                   "championship"]
          1 (divisions init))
      (KeyError "Zed").
Proof. reflexivity. Qed.

End Exceptions.

(** * Further properties of the code *)

(** ** Trimming *)

Section Trimming.

Lemma lstrip_chars_nil l :
  lstrip_chars l = [] <-> Forall (fun c => isspace c = true) l.
Proof.
  induction l as [|c r IH]; simpl.
  - split; [constructor | reflexivity].
  - destruct (isspace c) eqn:E.
    + rewrite IH. split; [now constructor | now inversion 1].
    + split; [discriminate | inversion 1; congruence].
Qed.

Lemma string_of_list_ascii_nil l : string_of_list_ascii l = "" -> l = [].
Proof. destruct l; [reflexivity | discriminate]. Qed.

Lemma Forall_rev_iff {A} (P : A -> Prop) l : Forall P (rev l) <-> Forall P l.
Proof.
  rewrite !Forall_forall. split; intros H x Hx; apply H.
  - now apply in_rev in Hx.
  - now apply in_rev.
Qed.

(** What is left of a list after the leading whitespace is gone is all
    whitespace only when nothing is left. *)
Lemma lstrip_chars_blank_rest l :
  Forall (fun c => isspace c = true) (lstrip_chars l) -> lstrip_chars l = [].
Proof.
  induction l as [|c r IH]; simpl; [reflexivity|].
  destruct (isspace c) eqn:E; [exact IH|].
  inversion 1; congruence.
Qed.

Lemma strip_empty_iff s : strip s = "" <-> blank s.
Proof.
  unfold strip, blank. split.
  - intros H. apply string_of_list_ascii_nil in H.
    assert (H' : lstrip_chars (rev (lstrip_chars (list_ascii_of_string s)))
                 = []).
    { destruct (lstrip_chars (rev _)); [reflexivity|].
      simpl in H. now apply app_eq_nil in H as [_ H]. }
    apply lstrip_chars_nil, Forall_rev_iff, lstrip_chars_blank_rest in H'.
    now apply lstrip_chars_nil.
  - intros H. apply lstrip_chars_nil in H. rewrite H. reflexivity.
Qed.

End Trimming.

(** ** Entering a driver *)

Section AddDriver.
Import TournamentManager.

Lemma mem_false_iff x l : mem x l = false <-> ~ In x l.
Proof.
  rewrite <- mem_In. destruct (mem x l); split; congruence.
Qed.

(** X1. [add_driver] refuses exactly when the name is blank, or its trimmed
    form is already a key, or the division is not one of the fixed ones; and
    a refusal leaves the manager as it was. *)
Theorem add_driver_refusal st name division :
  let reply := add_driver st name division in
  (fst (snd reply) = false
   <-> blank name
       \/ PyDict.contains (strip name) (drivers st) = true
       \/ ~ In division (divisions st))
  /\ (fst (snd reply) = false -> fst reply = st).
Proof.
  cbv zeta. unfold add_driver.
  destruct (String.eqb_spec (strip name) "") as [E|E]; cbn [orb fst snd].
  { split; [|reflexivity]. split; [|reflexivity].
    intros _. left. now apply strip_empty_iff. }
  destruct (PyDict.contains (strip name) (drivers st)) eqn:Ec; cbn [fst snd].
  { split; [|reflexivity]. split; [auto | reflexivity]. }
  destruct (mem division (divisions st)) eqn:Em; cbn [negb fst snd].
  - split; [|discriminate]. split; [discriminate|].
    intros [H|[H|H]].
    + apply strip_empty_iff in H. contradiction.
    + discriminate.
    + apply mem_In in Em. contradiction.
  - split; [|reflexivity]. split; [|reflexivity].
    intros _. right. right. now apply mem_false_iff.
Qed.

(** X2. When [add_driver] accepts, the table is the old one followed by one
    new entry: under the trimmed name, a driver with that name and the given
    division, no win, no loss, no race and status ACTIVE.  Every other entry
    is found as before, and the race log, the counter and the divisions are
    untouched. *)
Theorem add_driver_effect st name division :
  let reply := add_driver st name division in
  let after := fst reply in
  let key := strip name in
  fst (snd reply) = true ->
  drivers after
  = drivers st ++ [(key, Driver.mk key division 0 0 [] DriverStatus.ACTIVE)]
  /\ PyDict.get key (drivers after)
     = Some (Driver.mk key division 0 0 [] DriverStatus.ACTIVE)
  /\ (forall k, k <> key ->
        PyDict.get k (drivers after) = PyDict.get k (drivers st))
  /\ races after = races st
  /\ race_counter after = race_counter st
  /\ divisions after = divisions st.
Proof.
  cbv zeta. unfold add_driver.
  destruct (String.eqb (strip name) ""); cbn [orb fst snd];
    [discriminate|].
  destruct (PyDict.contains (strip name) (drivers st)) eqn:Ec;
    cbn [fst snd]; [discriminate|].
  destruct (mem division (divisions st)); cbn [negb fst snd];
    [|discriminate].
  intros _. cbn [with_drivers drivers races race_counter divisions].
  refine (conj _ (conj _ (conj _ (conj eq_refl (conj eq_refl eq_refl))))).
  - now apply set_absent.
  - apply get_set_eq.
  - intros k Hk. now apply get_set_ne.
Qed.

(** Carol, entered with blanks around her name, is stored as "Carol" after
    Alice and Bob. *)
Lemma add_driver_effect_witness :
  PyDict.keys (drivers (fst (add_driver Sample.two_drivers "  Carol " "DAMES")))
  = ["Alice"; "Bob"; "Carol"].
Proof.
  destruct (add_driver_effect Sample.two_drivers "  Carol " "DAMES"
              ltac:(vm_compute; reflexivity)) as (H & _).
  rewrite H. vm_compute. reflexivity.
Defined.

End AddDriver.

Section AddDriverExample.
Import TournamentManager.

(** A name of three spaces is refused. *)
Lemma add_driver_refusal_witness :
  fst (snd (add_driver Sample.two_drivers "   " "OPEN")) = false.
Proof.
  apply (proj2 (proj1 (add_driver_refusal Sample.two_drivers "   " "OPEN"))).
  left. repeat constructor.
Defined.

End AddDriverExample.

(** ** Looking up and listing *)

Section Listing.
Import TournamentManager.

Lemma get_In {V} (d : PyDict.t V) k v :
  NoDup (PyDict.keys d) -> (PyDict.get k d = Some v <-> In (k, v) d).
Proof.
  induction d as [|[k0 v0] r IH]; simpl; intros Hnd.
  - split; [discriminate | tauto].
  - inversion Hnd as [|? ? Hk0 Hr]; subst.
    destruct (String.eqb_spec k k0) as [->|Hne].
    + split.
      * intros [= ->]. now left.
      * intros [[= ->]|Hin]; [reflexivity|].
        exfalso. apply Hk0. apply (in_map fst) in Hin. exact Hin.
    + rewrite (IH Hr). split; [now right|].
      intros [[= -> _]|Hin]; [congruence | exact Hin].
Qed.

Lemma keys_del {V} (d : PyDict.t V) k :
  NoDup (PyDict.keys d) -> PyDict.keys (PyDict.del k d) = keys_without k d.
Proof.
  unfold keys_without.
  induction d as [|[k0 v0] r IH]; simpl; intros Hnd; [reflexivity|].
  inversion Hnd as [|? ? Hk0 Hr]; subst.
  destruct (String.eqb_spec k k0) as [->|Hne].
  - rewrite String.eqb_refl. cbn [negb].
    symmetry. apply forallb_filter_id. apply forallb_forall.
    intros x Hx. destruct (String.eqb_spec x k0); [subst; contradiction|].
    reflexivity.
  - destruct (String.eqb_spec k0 k); [congruence|]. cbn [negb].
    simpl. f_equal. exact (IH Hr).
Qed.

Lemma active_in_keys st division n :
  In n (get_active_drivers st division) -> In n (PyDict.keys (drivers st)).
Proof.
  unfold get_active_drivers, PyDict.keys. rewrite !in_map_iff.
  intros (item & <- & Hin). apply filter_In in Hin. exists item. tauto.
Qed.

Lemma NoDup_map_filter {A B} (f : A -> B) (p : A -> bool) l :
  NoDup (map f l) -> NoDup (map f (filter p l)).
Proof.
  induction l as [|x r IH]; simpl; intros Hnd; [constructor|].
  inversion Hnd as [|? ? Hx Hr]; subst.
  destruct (p x); simpl; [|auto].
  constructor; [|auto].
  intros Hin. apply Hx. apply in_map_iff in Hin.
  destruct Hin as (y & <- & Hy). apply filter_In in Hy.
  apply in_map. tauto.
Qed.

Lemma in_active_iff st division n :
  NoDup (PyDict.keys (drivers st)) ->
  In n (get_active_drivers st division)
  <-> exists d, PyDict.get n (drivers st) = Some d
                /\ Driver.division d = division
                /\ Driver.status d = DriverStatus.ACTIVE.
Proof.
  intros Hnd. unfold get_active_drivers. rewrite in_map_iff. split.
  - intros ([k d] & <- & Hin). apply filter_In in Hin.
    destruct Hin as [Hin Hp]. apply andb_true_iff in Hp.
    destruct Hp as [Hd Hs]. apply String.eqb_eq in Hd, Hs.
    exists d. split; [now apply get_In | auto].
  - intros (d & Hget & Hd & Hs). exists (n, d). split; [reflexivity|].
    apply filter_In. split; [now apply get_In|].
    simpl. rewrite Hd, Hs. now rewrite !String.eqb_refl.
Qed.

(** X4. On a table without a repeated key, [get_active_drivers] lists a name
    exactly when the driver stored under it is in the division and has the
    stored status ACTIVE; it lists no name twice. *)
Theorem get_active_drivers_spec st division :
  NoDup (PyDict.keys (drivers st)) ->
  (forall n,
      In n (get_active_drivers st division)
      <-> exists d, PyDict.get n (drivers st) = Some d
                    /\ Driver.division d = division
                    /\ Driver.status d = DriverStatus.ACTIVE)
  /\ NoDup (get_active_drivers st division).
Proof.
  intros Hnd. split.
  - intros n. now apply in_active_iff.
  - unfold get_active_drivers. now apply NoDup_map_filter.
Qed.

(** Alice is listed in OPEN once Bob is out. *)
Lemma get_active_drivers_spec_witness :
  In "Alice" (get_active_drivers Sample.bob_out "OPEN")
  /\ ~ In "Bob" (get_active_drivers Sample.bob_out "OPEN").
Proof.
  assert (Hnd : NoDup (PyDict.keys (drivers Sample.bob_out))).
  { vm_compute. repeat constructor; simpl; intuition discriminate. }
  destruct (get_active_drivers_spec Sample.bob_out "OPEN" Hnd) as [H _].
  split.
  - apply H. eexists. split; [vm_compute; reflexivity|]. split; reflexivity.
  - intros Hin. apply H in Hin. destruct Hin as (d & Hd & _ & Hs).
    vm_compute in Hd. injection Hd as <-. discriminate Hs.
Defined.

End Listing.

(** ** Removing a driver *)

Section DeleteDriver.
Import TournamentManager.

(** X3. [delete_driver] refuses a name that is no key and changes nothing.
    For a key of a table without repeated keys it succeeds: the key is gone,
    every other entry is found as before and the remaining keys keep their
    order, the race log and the counter are untouched, and the name is no
    longer listed by [get_active_drivers]. *)
Theorem delete_driver_effect st driver_name :
  NoDup (PyDict.keys (drivers st)) ->
  let reply := Api.delete_driver st driver_name in
  let after := fst reply in
  (PyDict.contains driver_name (drivers st) = false ->
   after = st /\ fst (snd reply) = false)
  /\ (PyDict.contains driver_name (drivers st) = true ->
      fst (snd reply) = true
      /\ PyDict.get driver_name (drivers after) = None
      /\ (forall k, k <> driver_name ->
            PyDict.get k (drivers after) = PyDict.get k (drivers st))
      /\ PyDict.keys (drivers after) = keys_without driver_name (drivers st)
      /\ races after = races st
      /\ race_counter after = race_counter st
      /\ forall division,
           ~ In driver_name (get_active_drivers after division)).
Proof.
  intros Hnd. cbv zeta. unfold Api.delete_driver.
  destruct (PyDict.contains driver_name (drivers st)) eqn:Ec;
    cbn [negb fst snd].
  - split; [discriminate|]. intros _.
    cbn [with_drivers drivers races race_counter].
    assert (Hgone : PyDict.get driver_name
                      (PyDict.del driver_name (drivers st)) = None)
      by now apply get_del_eq.
    refine (conj eq_refl (conj Hgone (conj _ (conj _
              (conj eq_refl (conj eq_refl _)))))).
    + intros k Hk. now apply get_del_ne.
    + now apply keys_del.
    + intros division Hin. apply active_in_keys in Hin.
      unfold with_drivers in Hin. cbn [drivers] in Hin.
      apply contains_keys, contains_get in Hin.
      destruct Hin as [d Hd]. congruence.
  - split; [auto | discriminate].
Qed.

(** Bob is removed after his three defeats: the three races stay logged. *)
Lemma delete_driver_effect_witness :
  let after := fst (Api.delete_driver Sample.bob_out "Bob") in
  PyDict.keys (drivers after) = ["Alice"]
  /\ races after = races Sample.bob_out.
Proof.
  intros after.
  assert (Hnd : NoDup (PyDict.keys (drivers Sample.bob_out))).
  { vm_compute. repeat constructor; simpl; intuition discriminate. }
  destruct (delete_driver_effect Sample.bob_out "Bob" Hnd) as [_ H].
  destruct (H ltac:(vm_compute; reflexivity))
    as (_ & _ & _ & Hkeys & Hraces & _).
  subst after. split; [|exact Hraces].
  rewrite Hkeys. vm_compute. reflexivity.
Defined.

End DeleteDriver.

(** ** Statistics *)

Section Statistics.
Import TournamentManager.

Lemma two_filters_length {A} (p q : A -> bool) l :
  (forall x, p x = true -> q x = false) ->
  (List.length (filter p l) + List.length (filter q l) <= List.length l)%nat
  /\ ((List.length (filter p l) + List.length (filter q l))%nat
      = List.length l
      <-> Forall (fun x => p x = true \/ q x = true) l).
Proof.
  intros Hpq. induction l as [|x r [IHle IHeq]]; simpl.
  - split; [lia|]. split; [constructor | reflexivity].
  - destruct (p x) eqn:Ep.
    + rewrite (Hpq x Ep). simpl. split; [lia|]. split.
      * intros H. constructor; [now left|]. apply IHeq. lia.
      * intros H. inversion H; subst. apply IHeq in H3. lia.
    + destruct (q x) eqn:Eq; simpl.
      * split; [lia|]. split.
        -- intros H. constructor; [now right|]. apply IHeq. lia.
        -- intros H. inversion H; subst. apply IHeq in H3. lia.
      * split; [lia|]. split.
        -- intros H. lia.
        -- intros H. inversion H as [|? ? [Hx|Hx] _]; congruence.
Qed.

Lemma nodup_length_le (l : list string) :
  (List.length (nodup string_dec l) <= List.length l)%nat.
Proof.
  induction l as [|x r IH]; simpl; [lia|].
  destruct (in_dec string_dec x r); simpl; lia.
Qed.

(** X5. In the statistics, the ACTIVE and the ELIMINATED counts together
    never exceed the number of drivers, and make it up exactly when every
    stored status is one of the two; the divisions counted are the distinct
    divisions that have at least one driver, so their number is at most the
    number of drivers and is 0 only for an empty table. *)
Theorem get_tournament_stats_counts st :
  let s := get_tournament_stats st in
  let ds := PyDict.values (drivers st) in
  0 <= active_drivers s
  /\ 0 <= eliminated_drivers s
  /\ active_drivers s + eliminated_drivers s <= total_drivers s
  /\ (active_drivers s + eliminated_drivers s = total_drivers s
      <-> Forall (fun d => Driver.status d = DriverStatus.ACTIVE
                           \/ Driver.status d = DriverStatus.ELIMINATED) ds)
  /\ (exists represented,
         NoDup represented
         /\ (forall dv, In dv represented
                        <-> exists d, In d ds /\ Driver.division d = dv)
         /\ stats_divisions s = len represented)
  /\ stats_divisions s <= total_drivers s
  /\ (stats_divisions s = 0 <-> total_drivers s = 0).
Proof.
  cbv zeta. unfold get_tournament_stats, len.
  cbn [active_drivers eliminated_drivers total_drivers stats_divisions].
  set (ds := PyDict.values (drivers st)).
  assert (Hlen : List.length (drivers st) = List.length ds)
    by (unfold ds, PyDict.values; now rewrite length_map).
  rewrite Hlen.
  set (act := fun d => String.eqb (Driver.status d) DriverStatus.ACTIVE).
  set (eli := fun d => String.eqb (Driver.status d) DriverStatus.ELIMINATED).
  assert (Hdisj : forall d, act d = true -> eli d = false).
  { intros d H. unfold act, eli in *. apply String.eqb_eq in H. rewrite H.
    reflexivity. }
  destruct (two_filters_length act eli ds Hdisj) as [Hle Heq].
  pose proof (nodup_length_le (map Driver.division ds)) as Hdiv.
  rewrite length_map in Hdiv.
  refine (conj _ (conj _ (conj _ (conj _ (conj _ (conj _ _)))))).
  - lia.
  - lia.
  - lia.
  - split.
    + intros H. assert (H' : (List.length (filter act ds)
                              + List.length (filter eli ds))%nat
                             = List.length ds) by lia.
      apply Heq in H'. eapply Forall_impl; [|exact H'].
      intros d [Hd|Hd]; [left | right]; now apply String.eqb_eq.
    + intros H. assert (H' : Forall (fun x => act x = true \/ eli x = true) ds).
      { eapply Forall_impl; [|exact H].
        intros d [Hd|Hd]; [left | right]; now apply String.eqb_eq. }
      apply Heq in H'. lia.
  - exists (nodup string_dec (map Driver.division ds)).
    split; [apply NoDup_nodup|]. split; [|reflexivity].
    intros dv. rewrite nodup_In, in_map_iff. split.
    + intros (d & Hd & Hin). eauto.
    + intros (d & Hin & Hd). eauto.
  - lia.
  - split.
    + intros H.
      destruct ds as [|d r]; [reflexivity|]. exfalso.
      assert (Hin : In (Driver.division d)
                       (nodup string_dec (map Driver.division (d :: r))))
        by (apply nodup_In; now left).
      destruct (nodup string_dec (map Driver.division (d :: r)));
        [destruct Hin | simpl in H; lia].
    + intros H. destruct ds; [reflexivity | simpl in H; lia].
Qed.

(** With Bob eliminated: one ACTIVE, one ELIMINATED, two drivers, one
    division. *)
Lemma get_tournament_stats_counts_witness :
  let s := get_tournament_stats Sample.bob_out in
  active_drivers s + eliminated_drivers s = total_drivers s.
Proof.
  intros s.
  destruct (get_tournament_stats_counts Sample.bob_out)
    as (_ & _ & _ & H & _).
  apply H. vm_compute.
  constructor; [left; reflexivity|].
  constructor; [right; reflexivity|].
  constructor.
Defined.

End Statistics.

(** ** What a recording touches *)

Section RecordRaceFrame.
Import TournamentManager.

Lemma grown_refl d : grown d d.
Proof.
  unfold grown. repeat split; try lia. exists []. now rewrite app_nil_r.
Qed.

Lemma grown_trans a b c : grown a b -> grown b c -> grown a c.
Proof.
  intros (Hn & Hd & Hw & Hl & m & Hm) (Hn' & Hd' & Hw' & Hl' & m' & Hm').
  unfold grown. repeat split; try congruence; try lia.
  exists (m ++ m'). now rewrite Hm', Hm, app_assoc.
Qed.

Lemma grown_add_race_result d rn won :
  grown d (Driver.add_race_result d rn won).
Proof.
  unfold grown, Driver.add_race_result, Driver.update_status.
  destruct won, (Driver.is_eliminated _); simpl;
    repeat split; try lia; eexists; reflexivity.
Qed.

Lemma all_grown_refl ds : all_grown ds ds.
Proof. intros k d H. exists d. split; [exact H | apply grown_refl]. Qed.

Lemma all_grown_trans a b c : all_grown a b -> all_grown b c -> all_grown a c.
Proof.
  intros Hab Hbc k d H.
  destruct (Hab k d H) as (d' & H' & G).
  destruct (Hbc k d' H') as (d'' & H'' & G').
  exists d''. split; [exact H'' | eapply grown_trans; eassumption].
Qed.

Lemma apply_result_outside st n rn won k :
  k <> n ->
  PyDict.get k (drivers (outcome_state (apply_result st n rn won)))
  = PyDict.get k (drivers st).
Proof.
  intros Hk. unfold apply_result.
  destruct (PyDict.get n (drivers st)); cbn [outcome_state]; [|reflexivity].
  simpl. now apply get_set_ne.
Qed.

Lemma apply_result_keys st n rn won :
  PyDict.keys (drivers (outcome_state (apply_result st n rn won)))
  = PyDict.keys (drivers st).
Proof.
  unfold apply_result.
  destruct (PyDict.get n (drivers st)) eqn:E; cbn [outcome_state];
    [|reflexivity].
  simpl. apply keys_set_present. apply contains_get. eauto.
Qed.

Lemma apply_result_grown st n rn won :
  all_grown (drivers st) (drivers (outcome_state (apply_result st n rn won))).
Proof.
  unfold apply_result.
  destruct (PyDict.get n (drivers st)) as [dn|] eqn:E; cbn [outcome_state];
    [|apply all_grown_refl].
  intros k d H. simpl. destruct (String.eqb_spec k n) as [->|Hne].
  - rewrite get_set_eq. eexists. split; [reflexivity|].
    assert (d = dn) by congruence. subst. apply grown_add_race_result.
  - rewrite get_set_ne by assumption. exists d. split; [exact H|].
    apply grown_refl.
Qed.

Lemma record_losers_outside names : forall st w k,
  ~ In k names \/ k = w ->
  PyDict.get k (drivers (outcome_state (record_losers st w names)))
  = PyDict.get k (drivers st).
Proof.
  induction names as [|x rest IH]; intros st w k Hk; [reflexivity|].
  cbn [record_losers].
  assert (Hrest : ~ In k rest \/ k = w)
    by (destruct Hk as [Hk|Hk]; [left; intros H; apply Hk; now right | auto]).
  destruct (String.eqb_spec x w) as [->|Hx]; [now apply IH|].
  assert (Hkx : k <> x).
  { destruct Hk as [Hk| ->]; [|congruence].
    intros ->. apply Hk. now left. }
  pose proof (apply_result_outside st x (race_counter st) false k Hkx) as H.
  destruct (apply_result st x (race_counter st) false) as [st1 []|st1 e];
    cbn [outcome_state] in *; [|exact H].
  rewrite (IH st1 w k Hrest). exact H.
Qed.

Lemma record_losers_keys names : forall st w,
  PyDict.keys (drivers (outcome_state (record_losers st w names)))
  = PyDict.keys (drivers st).
Proof.
  induction names as [|x rest IH]; intros st w; [reflexivity|].
  cbn [record_losers].
  destruct (String.eqb x w); [apply IH|].
  pose proof (apply_result_keys st x (race_counter st) false) as H.
  destruct (apply_result st x (race_counter st) false) as [st1 []|st1 e];
    cbn [outcome_state] in *; [|exact H].
  now rewrite IH.
Qed.

Lemma record_losers_grown names : forall st w,
  all_grown (drivers st) (drivers (outcome_state (record_losers st w names))).
Proof.
  induction names as [|x rest IH]; intros st w; [apply all_grown_refl|].
  cbn [record_losers].
  destruct (String.eqb x w); [apply IH|].
  pose proof (apply_result_grown st x (race_counter st) false) as H.
  destruct (apply_result st x (race_counter st) false) as [st1 []|st1 e];
    cbn [outcome_state] in *; [|exact H].
  eapply all_grown_trans; [exact H | apply IH].
Qed.

(** X6. Whatever [record_race] does (refuse, record, or stop on an
    exception), the table keeps its keys in their order; a driver that is no
    participant is left as it was; every driver keeps its name and division,
    loses no win and no loss, and has its race list continued; the race log
    is the old one with at most one race added; and the counter goes up by
    at most one. *)
Theorem record_race_frame now st d1 d2 w d3 ty :
  let st' := outcome_state (record_race now st d1 d2 w d3 ty) in
  PyDict.keys (drivers st') = PyDict.keys (drivers st)
  /\ (forall k, ~ In k (racing_drivers d1 d2 d3) ->
        PyDict.get k (drivers st') = PyDict.get k (drivers st))
  /\ all_grown (drivers st) (drivers st')
  /\ (exists added, races st' = races st ++ added
                    /\ (List.length added <= 1)%nat)
  /\ race_counter st <= race_counter st' <= race_counter st + 1
  /\ divisions st' = divisions st.
Proof.
  cbv zeta.
  destruct (record_race_verdict now st d1 d2 w d3 ty)
    as [(msg & _ & ->)|(a & b & Hv & _ & _ & ->)]; cbn [outcome_state].
  - refine (conj eq_refl (conj (fun _ _ => eq_refl)
              (conj (all_grown_refl _) (conj _ (conj _ eq_refl))))).
    + exists []. split; [now rewrite app_nil_r | simpl; lia].
    + lia.
  - assert (Hw : In w (racing_drivers d1 d2 d3))
      by (apply mem_In; inversion Hv; assumption).
    pose proof (recorded_log now st d1 d2 w d3 ty a) as (Hr & Hc & Hd).
    unfold recorded in *.
    set (st1 := logged now st d1 d2 w d3 ty a) in *.
    pose proof (apply_result_keys st1 w (race_counter st + 1) true) as K1.
    pose proof (apply_result_grown st1 w (race_counter st + 1) true) as G1.
    assert (O1 : forall k, ~ In k (racing_drivers d1 d2 d3) ->
                 PyDict.get k (drivers (outcome_state
                   (apply_result st1 w (race_counter st + 1) true)))
                 = PyDict.get k (drivers st1)).
    { intros k Hk. apply apply_result_outside. intros ->. contradiction. }
    destruct (apply_result st1 w (race_counter st + 1) true)
      as [st2 []|st2 e]; cbn [outcome_state] in *.
    + pose proof (record_losers_keys (racing_drivers d1 d2 d3) st2 w) as K2.
      pose proof (record_losers_grown (racing_drivers d1 d2 d3) st2 w) as G2.
      pose proof (fun k (Hk : ~ In k (racing_drivers d1 d2 d3)) =>
                    record_losers_outside (racing_drivers d1 d2 d3) st2 w k
                      (or_introl Hk)) as O2.
      destruct (record_losers st2 w (racing_drivers d1 d2 d3))
        as [st3 []|st3 e]; cbn [outcome_state] in *.
      all: refine (conj _ (conj _ (conj _ (conj _ (conj _ _))))).
      all: try (rewrite K2, K1; reflexivity).
      all: try (intros k Hk; rewrite (O2 k Hk); exact (O1 k Hk)).
      all: try (eapply all_grown_trans; [exact G1 | exact G2]).
      all: try (rewrite Hr; eexists; split; [reflexivity | simpl; lia]).
      all: try (rewrite Hc; simpl; lia).
      all: try (rewrite Hd; reflexivity).
    + refine (conj K1 (conj O1 (conj G1 (conj _ (conj _ _))))).
      * rewrite Hr. eexists. split; [reflexivity | simpl; lia].
      * rewrite Hc. simpl. lia.
      * rewrite Hd. reflexivity.
Qed.

(** After the race stopped by the absent third participant, Bob still has
    his name, division and at least the losses he had. *)
Lemma record_race_frame_witness :
  exists d', PyDict.get "Bob"
               (drivers (outcome_state
                  (record_race Sample.noon Sample.two_drivers
                     "Alice" "Bob" "Alice" (Some "Zed") "championship")))
             = Some d'
             /\ grown (Driver.new "Bob" "OPEN") d'.
Proof.
  destruct (record_race_frame Sample.noon Sample.two_drivers
              "Alice" "Bob" "Alice" (Some "Zed") "championship")
    as (_ & _ & G & _).
  apply (G "Bob"). vm_compute. reflexivity.
Defined.

End RecordRaceFrame.

(** ** What a recorded race writes *)

Section RecordRaceEffect.
Import TournamentManager.

Lemma apply_result_counter st n rn won st' :
  apply_result st n rn won = Returned st' tt ->
  race_counter st' = race_counter st.
Proof.
  intros H. pose proof (apply_result_log st n rn won) as (_ & Hc & _).
  rewrite H in Hc. exact Hc.
Qed.

(** The loop gives one loss, with the current race number, to each listed
    name other than the winner, when no name is listed twice. *)
Lemma record_losers_effect names : forall st w st',
  NoDup names ->
  record_losers st w names = Returned st' tt ->
  forall k d, In k names -> k <> w ->
    PyDict.get k (drivers st) = Some d ->
    PyDict.get k (drivers st')
    = Some (Driver.add_race_result d (race_counter st) false).
Proof.
  induction names as [|x rest IH]; intros st w st' Hnd Hrun k d Hin Hkw Hget;
    [destruct Hin|].
  inversion Hnd as [|? ? Hx Hrest]; subst.
  cbn [record_losers] in Hrun.
  destruct (String.eqb_spec x w) as [->|Hxw].
  - destruct Hin as [->|Hin]; [congruence|]. eapply IH; eassumption.
  - destruct (apply_result st x (race_counter st) false) as [st1 []|st1 e]
      eqn:E1; [|discriminate].
    pose proof (apply_result_counter _ _ _ _ _ E1) as Hc.
    destruct Hin as [->|Hin].
    + pose proof (record_losers_outside rest st1 w k (or_introl Hx)) as Ho.
      rewrite Hrun in Ho. cbn [outcome_state] in Ho. rewrite Ho.
      unfold apply_result in E1. rewrite Hget in E1.
      injection E1 as <-. simpl. apply get_set_eq.
    + assert (Hkx : k <> x) by (intros ->; contradiction).
      pose proof (apply_result_outside st x (race_counter st) false k Hkx)
        as Ho.
      rewrite E1 in Ho. cbn [outcome_state] in Ho.
      rewrite <- Hc. eapply IH; try eassumption. now rewrite Ho.
Qed.

(** X7. When [record_race] reports success for participants that are
    pairwise different, the message names the new race number and the
    winner, the log gets one race with that number, the given names, the
    division of the first driver and the clock reading, and every
    participant's record is the old one after [add_race_result] with that
    number: as a win for the winner, as a loss for the others. *)
Theorem record_race_effect now st d1 d2 w d3 ty st' msg :
  record_race now st d1 d2 w d3 ty = Returned st' (true, msg) ->
  NoDup (racing_drivers d1 d2 d3) ->
  let number := race_counter st + 1 in
  msg = ("Race " ++ str number ++ ": " ++ w ++ " wins!")%string
  /\ race_counter st' = number
  /\ (exists a, PyDict.get d1 (drivers st) = Some a
                /\ races st'
                   = races st
                     ++ [Race.mk number d1 d2 w (Driver.division a) now d3 ty])
  /\ (forall k d, In k (racing_drivers d1 d2 d3) ->
        PyDict.get k (drivers st) = Some d ->
        PyDict.get k (drivers st')
        = Some (Driver.add_race_result d number (String.eqb k w))).
Proof.
  intros Hrun Hnd. cbv zeta.
  destruct (record_race_verdict now st d1 d2 w d3 ty)
    as [(m & _ & E)|(a & b & Hv & Ha & _ & E)]; rewrite E in Hrun;
    [discriminate|].
  pose proof (recorded_log now st d1 d2 w d3 ty a) as (Hr & Hc & _).
  rewrite Hrun in Hr, Hc. cbn [outcome_state] in Hr, Hc.
  unfold recorded in Hrun.
  set (st1 := logged now st d1 d2 w d3 ty a) in *.
  destruct (apply_result st1 w (race_counter st + 1) true) as [st2 []|st2 e]
    eqn:E1; [|discriminate].
  destruct (record_losers st2 w (racing_drivers d1 d2 d3)) as [st3 []|st3 e]
    eqn:E2; [|discriminate].
  injection Hrun as <- <-.
  pose proof (apply_result_counter _ _ _ _ _ E1) as Hc2.
  refine (conj _ (conj Hc (conj _ _))).
  - rewrite Hc. reflexivity.
  - exists a. split; [exact Ha|]. rewrite Hr. reflexivity.
  - intros k d Hin Hget.
    destruct (String.eqb_spec k w) as [->|Hkw].
    + pose proof (record_losers_outside (racing_drivers d1 d2 d3) st2 w w
                    (or_intror eq_refl)) as Ho.
      rewrite E2 in Ho. cbn [outcome_state] in Ho. rewrite Ho.
      unfold apply_result in E1. change (drivers st1) with (drivers st) in E1.
      rewrite Hget in E1. injection E1 as <-. simpl. apply get_set_eq.
    + pose proof (apply_result_outside st1 w (race_counter st + 1) true k Hkw)
        as Ho.
      rewrite E1 in Ho. cbn [outcome_state] in Ho.
      change (drivers st1) with (drivers st) in Ho.
      rewrite Hget in Ho.
      rewrite (record_losers_effect _ _ _ _ Hnd E2 k d Hin Hkw Ho).
      rewrite Hc2. reflexivity.
Qed.

(** The first race of Alice against Bob. *)
Lemma record_race_effect_witness :
  PyDict.get "Bob"
    (drivers (outcome_state
       (record_race Sample.noon Sample.two_drivers
          "Alice" "Bob" "Alice" None "regular")))
  = Some (Driver.mk "Bob" "OPEN" 0 1 [1] DriverStatus.ACTIVE).
Proof.
  destruct (record_race_effect Sample.noon Sample.two_drivers
              "Alice" "Bob" "Alice" None "regular"
              _ _ ltac:(vm_compute; reflexivity)) as (_ & _ & _ & H).
  - vm_compute. repeat constructor; simpl; intuition discriminate.
  - apply (H "Bob" (Driver.new "Bob" "OPEN")).
    + simpl. auto.
    + vm_compute. reflexivity.
Defined.

End RecordRaceEffect.

(** ** What holds of a tournament that was never loaded from a snapshot *)

Section CoreInvariant.
Import TournamentManager.

(** A property of records that [add_race_result] keeps is kept, for every
    entry, by whatever [record_race] does. *)
Section Preserved.
Variable P : string -> Driver.t -> Prop.
Hypothesis P_add_race_result :
  forall k d rn won, P k d -> P k (Driver.add_race_result d rn won).

Lemma apply_result_every st n rn won :
  every_driver P (drivers st) ->
  every_driver P (drivers (outcome_state (apply_result st n rn won))).
Proof.
  intros H. unfold apply_result.
  destruct (PyDict.get n (drivers st)) as [dn|] eqn:E; cbn [outcome_state];
    [|exact H].
  intros k d. simpl. destruct (String.eqb_spec k n) as [->|Hne].
  - rewrite get_set_eq. intros [= <-]. apply P_add_race_result. now apply H.
  - rewrite get_set_ne by assumption. apply H.
Qed.

Lemma record_losers_every names : forall st w,
  every_driver P (drivers st) ->
  every_driver P (drivers (outcome_state (record_losers st w names))).
Proof.
  induction names as [|x rest IH]; intros st w H; [exact H|].
  cbn [record_losers]. destruct (String.eqb x w); [now apply IH|].
  pose proof (apply_result_every st x (race_counter st) false H) as H1.
  destruct (apply_result st x (race_counter st) false) as [st1 []|st1 e];
    cbn [outcome_state] in *; [now apply IH | exact H1].
Qed.

Lemma record_race_every now st d1 d2 w d3 ty :
  every_driver P (drivers st) ->
  every_driver P
    (drivers (outcome_state (record_race now st d1 d2 w d3 ty))).
Proof.
  intros H.
  destruct (record_race_verdict now st d1 d2 w d3 ty)
    as [(msg & _ & ->)|(a & b & _ & _ & _ & ->)]; [exact H|].
  unfold recorded. generalize (racing_drivers d1 d2 d3) as names.
  intros names.
  pose proof (apply_result_every (logged now st d1 d2 w d3 ty a) w
                (race_counter st + 1) true H) as H1.
  destruct (apply_result _ w _ true) as [st2 []|st2 e];
    cbn [outcome_state] in *; [|exact H1].
  pose proof (record_losers_every names st2 w H1) as H2.
  destruct (record_losers st2 w names) as [st3 []|st3 e];
    cbn [outcome_state] in *; exact H2.
Qed.

End Preserved.

Lemma sound_add_race_result k d rn won :
  sound_driver k d -> sound_driver k (Driver.add_race_result d rn won).
Proof.
  intros (Hn & Hd & Hw & Hl & Hr & _).
  destruct (grown_add_race_result d rn won) as (Hn' & Hd' & Hw' & Hl' & _).
  destruct (add_race_result_counts d rn won) as [Ew El].
  unfold sound_driver. rewrite Hn', Hd'.
  refine (conj Hn (conj Hd (conj _ (conj _ (conj _ _))))); try lia.
  - unfold Driver.total_races. rewrite Ew, El.
    unfold Driver.total_races in Hr.
    assert (Hlen : len (Driver.races (Driver.add_race_result d rn won))
                   = len (Driver.races d) + 1).
    { unfold Driver.add_race_result, Driver.update_status, len.
      destruct won, (Driver.is_eliminated _); simpl;
        rewrite length_app; simpl; lia. }
    rewrite Hlen. destruct won; lia.
  - unfold Driver.add_race_result. apply status_fresh_update.
Qed.

Lemma record_race_keys now st d1 d2 w d3 ty :
  PyDict.keys (drivers (outcome_state (record_race now st d1 d2 w d3 ty)))
  = PyDict.keys (drivers st).
Proof.
  destruct (record_race_verdict now st d1 d2 w d3 ty)
    as [(msg & _ & ->)|(a & b & _ & _ & _ & ->)]; [reflexivity|].
  unfold recorded. generalize (racing_drivers d1 d2 d3) as names.
  intros names.
  pose proof (apply_result_keys (logged now st d1 d2 w d3 ty a) w
                (race_counter st + 1) true) as K1.
  destruct (apply_result _ w _ true) as [st2 []|st2 e];
    cbn [outcome_state] in *; [|exact K1].
  pose proof (record_losers_keys names st2 w) as K2.
  destruct (record_losers st2 w names) as [st3 []|st3 e];
    cbn [outcome_state] in *; now rewrite K2.
Qed.

Lemma numbered_append st r :
  numbered st -> Race.race_number r = race_counter st + 1 ->
  numbered (mk (drivers st) (races st ++ [r]) (race_counter st + 1)
               (divisions st)).
Proof.
  intros [Hc Hn] Hr. split; cbn [races race_counter].
  - unfold len in *. rewrite length_app. simpl. lia.
  - intros i x Hx.
    destruct (Nat.lt_ge_cases i (List.length (races st))) as [Hi|Hi].
    + rewrite nth_error_app1 in Hx by assumption. now apply Hn.
    + rewrite nth_error_app2 in Hx by assumption.
      destruct (i - List.length (races st))%nat as [|j] eqn:Ej; simpl in Hx.
      * injection Hx as <-. rewrite Hr, Hc. unfold len. lia.
      * destruct j; discriminate.
Qed.

Lemma numbered_same_log st st' :
  same_log st st' -> numbered st -> numbered st'.
Proof.
  intros (Hr & Hc & _) [Hnc Hn]. unfold numbered. rewrite Hr, Hc.
  split; assumption.
Qed.

Lemma record_race_numbered now st d1 d2 w d3 ty :
  numbered st ->
  numbered (outcome_state (record_race now st d1 d2 w d3 ty)).
Proof.
  intros H.
  destruct (record_race_verdict now st d1 d2 w d3 ty)
    as [(msg & _ & ->)|(a & b & _ & _ & _ & ->)]; [exact H|].
  eapply numbered_same_log; [apply recorded_log|].
  unfold logged. now apply numbered_append.
Qed.

Lemma record_race_divisions now st d1 d2 w d3 ty :
  divisions (outcome_state (record_race now st d1 d2 w d3 ty)) = divisions st.
Proof.
  destruct (record_race_verdict now st d1 d2 w d3 ty)
    as [(msg & _ & ->)|(a & b & _ & _ & _ & ->)]; [reflexivity|].
  pose proof (recorded_log now st d1 d2 w d3 ty a) as (_ & _ & H).
  exact H.
Qed.

Lemma get_del_Some {V} (d : PyDict.t V) k k' v :
  NoDup (PyDict.keys d) ->
  PyDict.get k (PyDict.del k' d) = Some v ->
  k <> k' /\ PyDict.get k d = Some v.
Proof.
  intros Hnd H. destruct (String.eqb_spec k k') as [->|Hne].
  - rewrite get_del_eq in H by assumption. discriminate.
  - rewrite get_del_ne in H by assumption. auto.
Qed.

Lemma core_invariant_with_drivers st ds :
  core_invariant st ->
  NoDup (PyDict.keys ds) -> every_driver sound_driver ds ->
  core_invariant (with_drivers st ds).
Proof.
  intros (_ & Hd & _ & Hn) Hk Hs. exact (conj Hk (conj Hd (conj Hs Hn))).
Qed.

Lemma core_add_driver_invariant st name division :
  core_invariant st -> core_invariant (fst (add_driver st name division)).
Proof.
  intros Hinv. pose proof Hinv as (Hk & Hd & Hs & Hn). unfold add_driver.
  destruct (_ || _)%bool; [exact Hinv|].
  destruct (mem division (divisions st)) eqn:Em; cbn [negb fst];
    [|exact Hinv].
  apply core_invariant_with_drivers; [exact Hinv | now apply NoDup_keys_set |].
  intros k d. destruct (String.eqb_spec k (strip name)) as [->|Hne].
  - rewrite get_set_eq. intros [= <-]. unfold sound_driver. simpl.
    apply mem_In in Em. rewrite Hd in Em.
    refine (conj eq_refl (conj Em (conj _ (conj _ (conj eq_refl _)))));
      try lia.
    unfold status_fresh. simpl.
    split; split; intros; try lia; try discriminate; reflexivity.
  - rewrite get_set_ne by assumption. apply Hs.
Qed.

Lemma core_record_race_invariant now st d1 d2 w d3 ty :
  core_invariant st ->
  core_invariant (outcome_state (record_race now st d1 d2 w d3 ty)).
Proof.
  intros (Hk & Hd & Hs & Hn).
  refine (conj _ (conj _ (conj _ _))).
  - now rewrite record_race_keys.
  - now rewrite record_race_divisions.
  - apply record_race_every; [|exact Hs].
    intros k d rn won. apply sound_add_race_result.
  - now apply record_race_numbered.
Qed.

Lemma core_delete_driver_invariant st driver_name :
  core_invariant st -> core_invariant (fst (Api.delete_driver st driver_name)).
Proof.
  intros Hinv. pose proof Hinv as (Hk & Hd & Hs & Hn).
  unfold Api.delete_driver.
  destruct (negb _); [exact Hinv|]. cbn [fst].
  apply core_invariant_with_drivers; [exact Hinv | now apply NoDup_keys_del |].
  intros k d H. apply get_del_Some in H; [|exact Hk]. apply Hs. tauto.
Qed.

Lemma core_update_driver_invariant st driver_name body :
  core_invariant st ->
  core_invariant (fst (Api.update_driver st driver_name body)).
Proof.
  intros Hinv. pose proof Hinv as (Hk & Hd & Hs & Hn).
  destruct body as [data|]; [|exact Hinv].
  pose proof (update_driver_cases st driver_name data) as Hcases.
  cbv zeta in Hcases.
  set (new_name := strip (get_default (Api.u_name data) "")) in *.
  set (new_division := strip (get_default (Api.u_division data) "")) in *.
  destruct Hcases as [(_ & msg & ->)|(Hok & driver & Hget & ->)];
    [exact Hinv|].
  cbn [fst].
  assert (Hdiv : In new_division (divisions init)).
  { rewrite <- Hd. apply mem_In.
    destruct (mem new_division (divisions st)) eqn:E; [reflexivity|].
    exfalso. apply Hok. unfold update_refused. auto. }
  pose proof (Hs _ _ Hget) as (Sn & _ & Sw & Sl & Sr & Sf).
  assert (Hnew : forall n, sound_driver n
                   (Driver.set_division (Driver.set_name driver n)
                      new_division)).
  { intros n. unfold sound_driver. simpl.
    refine (conj eq_refl (conj Hdiv (conj Sw (conj Sl (conj Sr Sf))))). }
  unfold updated_table.
  destruct (String.eqb_spec new_name driver_name) as [Es|Es].
  - apply core_invariant_with_drivers;
      [exact Hinv | now apply NoDup_keys_set |].
    intros k d. destruct (String.eqb_spec k driver_name) as [->|Hne].
    + rewrite get_set_eq. intros [= <-].
      unfold sound_driver. simpl.
      refine (conj Sn (conj Hdiv (conj Sw (conj Sl (conj Sr Sf))))).
    + rewrite get_set_ne by assumption. apply Hs.
  - apply core_invariant_with_drivers; [exact Hinv | |].
    + repeat first [apply NoDup_keys_set | apply NoDup_keys_del]. exact Hk.
    + intros k d. destruct (String.eqb_spec k new_name) as [->|Hne].
      * rewrite get_set_eq. intros [= <-]. apply Hnew.
      * rewrite !get_set_ne by assumption. intros H.
        apply get_del_Some in H; [|exact Hk]. apply Hs. tauto.
Qed.

Lemma core_reachable_invariant st : core_reachable st -> core_invariant st.
Proof.
  induction 1.
  - refine (conj _ (conj eq_refl (conj _ (conj eq_refl _)))).
    + constructor.
    + intros k d; discriminate.
    + intros [|i] r; discriminate.
  - now apply core_add_driver_invariant.
  - now apply core_record_race_invariant.
  - now apply core_update_driver_invariant.
  - now apply core_delete_driver_invariant.
Qed.

End CoreInvariant.

Section CoreProperties.
Import TournamentManager.

(** X8. In a tournament that was never loaded from a snapshot, the log holds
    the races numbered 1, 2, 3, ... in this order and the counter is the
    number of races logged; this includes the races logged by a call that
    then stopped on an exception, and is not disturbed by renaming or
    deleting drivers. *)
Theorem core_race_numbers st :
  core_reachable st ->
  race_counter st = len (races st)
  /\ (forall i r, nth_error (races st) i = Some r ->
                  Race.race_number r = Z.of_nat i + 1).
Proof.
  intros H. apply core_reachable_invariant in H.
  destruct H as (_ & _ & _ & Hn). exact Hn.
Qed.

(** X9. In a tournament that was never loaded from a snapshot, no key is
    repeated and every driver is stored under its own name, is in one of the
    eight fixed divisions, has wins and losses that are not negative and add
    up to the length of its race list, and has a stored status that agrees
    with its losses. *)
Theorem core_records_sound st :
  core_reachable st ->
  NoDup (PyDict.keys (drivers st))
  /\ forall k d, PyDict.get k (drivers st) = Some d ->
       Driver.name d = k
       /\ In (Driver.division d)
             ["2X4_4CYL"; "4X4_4CYL"; "4X4_6CYL_PETROL"; "4X4_6CYL_DIESEL";
              "4X4_V8_PETROL"; "4X4_V8_DIESEL"; "DAMES"; "OPEN"]
       /\ 0 <= Driver.wins d
       /\ 0 <= Driver.losses d
       /\ len (Driver.races d) = Driver.wins d + Driver.losses d
       /\ status_fresh d.
Proof.
  intros H. apply core_reachable_invariant in H.
  destruct H as (Hk & _ & Hs & _). split; [exact Hk|].
  intros k d Hget. exact (Hs k d Hget).
Qed.



(** X11. In a tournament that was never loaded from a snapshot,
    [get_active_drivers] lists exactly the names of the drivers of the
    division that have fewer than three losses. *)
Theorem core_active_not_eliminated st division n :
  core_reachable st ->
  In n (get_active_drivers st division)
  <-> exists d, PyDict.get n (drivers st) = Some d
                /\ Driver.division d = division
                /\ Driver.losses d < 3.
Proof.
  intros H. apply core_reachable_invariant in H.
  destruct H as (Hk & _ & Hs & _).
  rewrite (in_active_iff st division n Hk).
  split; intros (d & Hget & Hd & Hx); exists d;
    (split; [exact Hget|]); (split; [exact Hd|]);
    destruct (Hs n d Hget) as (_ & _ & _ & _ & _ & (_ & Hact));
    now apply Hact.
Qed.

Lemma two_drivers_core : core_reachable Sample.two_drivers.
Proof.
  unfold Sample.two_drivers.
  apply core_add_driver. apply core_add_driver. apply core_init.
Defined.

Lemma core_reachable_run calls : forall st,
  core_reachable st -> core_reachable (fst (run st calls)).
Proof.
  induction calls as [|c rest IH]; intros st Hst; [exact Hst|].
  cbn [run].
  specialize (IH (outcome_state (call st c))).
  destruct (run (outcome_state (call st c)) rest) as [final done].
  cbn [fst] in *. apply IH. unfold call. now apply core_record_race.
Defined.

Lemma bob_out_core : core_reachable Sample.bob_out.
Proof. apply core_reachable_run. exact two_drivers_core. Defined.

Lemma core_race_numbers_witness :
  race_counter Sample.bob_out = len (races Sample.bob_out).
Proof. exact (proj1 (core_race_numbers Sample.bob_out bob_out_core)). Defined.

Lemma core_records_sound_witness :
  NoDup (PyDict.keys (drivers Sample.bob_out)).
Proof. exact (proj1 (core_records_sound Sample.bob_out bob_out_core)). Defined.


Lemma core_active_not_eliminated_witness :
  In "Alice" (get_active_drivers Sample.bob_out "OPEN").
Proof.
  apply (core_active_not_eliminated Sample.bob_out "OPEN" "Alice"
           bob_out_core).
  eexists. split; [vm_compute; reflexivity|].
  split; [reflexivity | vm_compute; reflexivity].
Defined.

End CoreProperties.

(** ** Derived values *)

Section DerivedValues.



(** X13. For a race whose participants are pairwise different, whose winner
    is one of them, and which is a championship or has no third participant,
    [loser] names exactly the participants to whom [record_race] gives a
    loss: the names other than the winner's, in participant order, joined
    by a comma and a blank. *)
Theorem loser_names_the_losers r :
  let names := TournamentManager.racing_drivers
                 (Race.driver1 r) (Race.driver2 r) (Race.driver3 r) in
  NoDup names ->
  In (Race.winner r) names ->
  Race.race_type r = "championship" \/ Race.truthy (Race.driver3 r) = false ->
  Race.loser r
  = Race.join_comma
      (filter (fun n => negb (String.eqb n (Race.winner r))) names).
Proof.
  destruct r as [n d1 d2 w dv ts d3 ty]. cbv zeta.
  unfold Race.loser, TournamentManager.racing_drivers.
  cbn [Race.driver1 Race.driver2 Race.driver3 Race.winner Race.race_type].
  intros Hnd Hin Hty.
  destruct (Race.truthy d3) eqn:Et.
  - destruct Hty as [->|Hty]; [|discriminate].
    cbn [String.eqb Ascii.eqb Bool.eqb andb].
    destruct d3 as [x|]; [reflexivity | discriminate].
  - rewrite andb_false_r.
    assert (Hpair : NoDup [d1; d2] /\ In w [d1; d2]).
    { destruct d3; now rewrite app_nil_r in *. }
    destruct Hpair as [Hnd2 Hin2].
    assert (Hne : d1 <> d2).
    { inversion Hnd2 as [|? ? Hx _]; subst. intros ->. apply Hx. now left. }
    replace (match d3 with Some n0 => [] | None => [] end) with (@nil string)
      by (destruct d3; reflexivity).
    cbn [app filter].
    destruct Hin2 as [<-|[<-|[]]].
    + rewrite String.eqb_refl. cbn [negb].
      destruct (String.eqb_spec d2 d1); [congruence | reflexivity].
    + rewrite String.eqb_refl. cbn [negb].
      destruct (String.eqb_spec d2 d1); [congruence|].
      destruct (String.eqb_spec d1 d2); [congruence | reflexivity].
Qed.

(** A three-way championship won by the second driver. *)
Lemma loser_names_the_losers_witness :
  Race.loser (Race.mk 1 "Alice" "Bob" "Bob" "OPEN" Sample.noon (Some "Carol")
                      "championship")
  = "Alice, Carol".
Proof.
  rewrite (loser_names_the_losers
             (Race.mk 1 "Alice" "Bob" "Bob" "OPEN" Sample.noon (Some "Carol")
                      "championship")).
  - reflexivity.
  - vm_compute. repeat constructor; simpl; intuition discriminate.
  - vm_compute. auto.
  - left. reflexivity.
Defined.

End DerivedValues.

(** ** Operations one after the other *)

Section Composition.
Import TournamentManager.

Lemma del_last_absent {V} (d : PyDict.t V) k v :
  PyDict.contains k d = false -> PyDict.del k (d ++ [(k, v)]) = d.
Proof.
  unfold PyDict.contains.
  induction d as [|[k0 v0] r IH]; simpl.
  - now rewrite String.eqb_refl.
  - destruct (String.eqb_spec k k0) as [->|Hne]; [discriminate|].
    intros H. f_equal. exact (IH H).
Qed.

(** X14. Deleting a driver that was just added gives back the manager as it
    was before the addition. *)
Theorem delete_undoes_add st name division :
  fst (snd (add_driver st name division)) = true ->
  Api.delete_driver (fst (add_driver st name division)) (strip name)
  = (st, (true, "Driver " ++ strip name ++ " deleted successfully")%string).
Proof.
  unfold add_driver.
  destruct (String.eqb (strip name) ""); cbn [orb fst snd];
    [discriminate|].
  destruct (PyDict.contains (strip name) (drivers st)) eqn:Ec;
    cbn [fst snd]; [discriminate|].
  destruct (mem division (divisions st)); cbn [negb fst snd];
    [|discriminate].
  intros _. unfold Api.delete_driver, with_drivers.
  cbn [drivers races race_counter divisions].
  rewrite contains_set, String.eqb_refl. cbn [orb negb].
  rewrite (set_absent _ _ _ Ec), (del_last_absent _ _ _ Ec).
  destruct st; reflexivity.
Qed.

Lemma delete_undoes_add_witness :
  fst (Api.delete_driver (fst (add_driver Sample.two_drivers " Carol" "DAMES"))
                         "Carol")
  = Sample.two_drivers.
Proof.
  pose proof (delete_undoes_add Sample.two_drivers " Carol" "DAMES"
                ltac:(vm_compute; reflexivity)) as H.
  change (strip " Carol") with "Carol" in H.
  rewrite H. reflexivity.
Defined.

Lemma every_set (P : string -> Driver.t -> Prop) ds k v :
  every_driver P ds -> P k v -> every_driver P (PyDict.set k v ds).
Proof.
  intros H Hv k' d. destruct (String.eqb_spec k' k) as [->|Hne].
  - rewrite get_set_eq. now intros [= <-].
  - rewrite get_set_ne by assumption. apply H.
Qed.

Lemma apply_result_found st n rn won d :
  PyDict.get n (drivers st) = Some d ->
  apply_result st n rn won
  = Returned (with_drivers st
                (PyDict.set n (Driver.add_race_result d rn won) (drivers st)))
             tt.
Proof. intros H. unfold apply_result. now rewrite H. Qed.

(** X15. A race without a third participant never takes a driver beyond
    three losses: if nobody in the table has more than three before
    [record_race], nobody has more than three after it. *)
Theorem duel_keeps_losses_bounded now st d1 d2 w d3 ty :
  Race.truthy d3 = false ->
  every_driver (fun _ d => Driver.losses d <= 3) (drivers st) ->
  every_driver (fun _ d => Driver.losses d <= 3)
    (drivers (outcome_state (record_race now st d1 d2 w d3 ty))).
Proof.
  intros Hd3 Hall.
  destruct (record_race_verdict now st d1 d2 w d3 ty)
    as [(msg & _ & ->)|(a & b & Hv & Ha & Hb & ->)]; [exact Hall|].
  assert (Hnames : racing_drivers d1 d2 d3 = [d1; d2]).
  { unfold racing_drivers. rewrite Hd3. now destruct d3. }
  inversion Hv as [| | | |a' b' Ha' Hb' Hw _ Hla Hlb].
  assert (a' = a) by congruence. assert (b' = b) by congruence. subst a' b'.
  rewrite Hnames in Hw. apply mem_In in Hw.
  unfold recorded. rewrite Hnames.
  set (st1 := logged now st d1 d2 w d3 ty a).
  set (n := race_counter st + 1).
  assert (Hwin : forall d, Driver.losses (Driver.add_race_result d n true)
                           = Driver.losses d).
  { intros d. destruct (add_race_result_counts d n true) as [_ ->]. lia. }
  assert (Hloss : forall d rn, Driver.losses (Driver.add_race_result d rn false)
                               = Driver.losses d + 1).
  { intros d rn. now destruct (add_race_result_counts d rn false) as [_ ->]. }
  assert (Hdw : exists dw, PyDict.get w (drivers st1) = Some dw).
  { destruct Hw as [<-|[<-|[]]]; eauto. }
  destruct Hdw as [dw Hdw].
  rewrite (apply_result_found st1 w n true dw Hdw).
  set (st2 := with_drivers st1 _).
  assert (H2 : every_driver (fun _ d => Driver.losses d <= 3) (drivers st2)).
  { apply every_set; [exact Hall|]. rewrite Hwin.
    exact (Hall w dw Hdw). }
  cbn [record_losers].
  destruct (String.eqb_spec d1 w) as [E1|E1].
  - destruct (String.eqb_spec d2 w) as [E2|E2]; cbn [outcome_state];
      [exact H2|].
    assert (Hg : PyDict.get d2 (drivers st2) = Some b).
    { simpl. rewrite get_set_ne by assumption. exact Hb. }
    rewrite (apply_result_found st2 d2 _ false b Hg). cbn [outcome_state].
    apply every_set; [exact H2|]. rewrite Hloss. lia.
  - assert (Hg : PyDict.get d1 (drivers st2) = Some a).
    { simpl. rewrite get_set_ne by assumption. exact Ha. }
    rewrite (apply_result_found st2 d1 _ false a Hg).
    assert (E2 : d2 = w) by (destruct Hw as [?|[?|[]]]; congruence).
    destruct (String.eqb_spec d2 w); [|contradiction].
    cbn [outcome_state]. apply every_set; [exact H2|]. rewrite Hloss. lia.
Qed.

(** A fourth race against Bob after his three defeats is refused, so he
    stays at three losses. *)
Lemma duel_keeps_losses_bounded_witness :
  exists d,
    PyDict.get "Bob"
      (drivers (outcome_state
         (record_race Sample.noon Sample.bob_out
            "Alice" "Bob" "Alice" None "regular"))) = Some d
    /\ Driver.losses d <= 3.
Proof.
  assert (E : drivers Sample.bob_out
              = [("Alice", Driver.mk "Alice" "OPEN" 3 0 [1; 2; 3]
                                     DriverStatus.ACTIVE);
                 ("Bob", Driver.mk "Bob" "OPEN" 0 3 [1; 2; 3]
                                   DriverStatus.ELIMINATED)])
    by (vm_compute; reflexivity).
  assert (Hall : every_driver (fun _ d => Driver.losses d <= 3)
                   (drivers Sample.bob_out)).
  { intros k x. rewrite E. cbn [PyDict.get].
    destruct (String.eqb k "Alice"); [intros [= <-]; simpl; lia|].
    destruct (String.eqb k "Bob"); [intros [= <-]; simpl; lia | discriminate]. }
  eexists. split; [vm_compute; reflexivity|].
  apply (duel_keeps_losses_bounded Sample.noon Sample.bob_out
           "Alice" "Bob" "Alice" None "regular" eq_refl Hall "Bob").
  vm_compute. reflexivity.
Defined.

End Composition.

(** ** Importing: what is accepted, and what a failure leaves *)

Section ImportOutcome.
Import TournamentManager.

Lemma driver_from_dict_ok x :
  (exists d, Driver.from_dict x = inr d) <-> driver_readable x.
Proof.
  unfold Driver.from_dict, driver_readable, subscript, bind.
  destruct (Driver.d_name x), (Driver.d_division x); split;
    try (intros [d H]; discriminate);
    try (intros [H1 H2]; congruence).
  - intros _. split; discriminate.
  - intros _. eauto.
Qed.

Lemma race_from_kwargs_ok now x :
  (exists r, Race.from_kwargs now x = inr r) <-> race_constructible x.
Proof.
  unfold Race.from_kwargs, race_constructible, Race.required, bind.
  destruct (Race.d_unexpected x), (Race.d_race_number x),
    (Race.d_driver1 x), (Race.d_driver2 x), (Race.d_winner x),
    (Race.d_division x); split;
    try (intros [r H]; discriminate);
    try (intros (H0 & H1 & H2 & H3 & H4 & H5); congruence).
  - intros _. repeat split; discriminate.
  - intros _. eauto.
Qed.

Lemma comprehension_r_ok {V W} (f : V -> result W) (d : PyDict.t V) :
  forall acc,
    (exists out, PyDict.comprehension_r f d acc = inr out)
    <-> Forall (fun kv => exists w, f (snd kv) = inr w) d.
Proof.
  induction d as [|[k v] r IH]; intros acc; simpl.
  - split; [constructor | eauto].
  - destruct (f v) as [e|w] eqn:E; simpl.
    + split; [intros [out H]; discriminate|].
      inversion 1 as [|? ? [w Hw] _]; subst. simpl in Hw. congruence.
    + rewrite IH. split; [intros H; constructor; eauto|].
      now inversion 1.
Qed.

Lemma races_from_ok clock l : forall i,
  (exists rs, races_from clock i l = inr rs) <-> Forall race_constructible l.
Proof.
  induction l as [|x rest IH]; intros i; simpl.
  - split; [constructor | eauto].
  - destruct (Race.from_kwargs (clock i) x) as [e|r] eqn:E; simpl.
    + split; [intros [rs H]; discriminate|].
      inversion 1 as [|? ? Hx _]; subst.
      apply (race_from_kwargs_ok (clock i)) in Hx. destruct Hx. congruence.
    + destruct (races_from clock (S i) rest) as [e|rs] eqn:E'; simpl.
      * split; [intros [rs H]; discriminate|].
        inversion 1 as [|? ? _ Hr]; subst.
        apply (IH (S i)) in Hr. destruct Hr. congruence.
      * split; [|eauto]. intros _. constructor.
        -- apply (race_from_kwargs_ok (clock i)). eauto.
        -- apply (IH (S i)). eauto.
Qed.

(** X16. [from_dict] returns exactly for the snapshots that have a drivers
    table in which every driver has a name and a division, and a list of
    races each of which has the five required fields and no unknown one;
    for every other snapshot it raises. *)
Theorem from_dict_accepts_iff clock st x :
  raises (from_dict clock st x) = false <-> acceptable x.
Proof.
  unfold from_dict, acceptable, subscript.
  destruct (d_drivers x) as [ds|]; cbn [bind].
  2:{ split; [discriminate | intros (? & ? & ? & _); discriminate]. }
  pose proof (comprehension_r_ok Driver.from_dict ds PyDict.empty) as Hds.
  destruct (PyDict.comprehension_r Driver.from_dict ds PyDict.empty)
    as [e|new_drivers].
  { split; [discriminate|]. intros (ds' & rs & [= <-] & _ & Hall & _).
    assert (H : exists out, @inl exn (PyDict.t Driver.t) e = inr out).
    { apply Hds. eapply Forall_impl; [|exact Hall].
      intros kv. apply driver_from_dict_ok. }
    destruct H; discriminate. }
  assert (Hread : Forall (fun kv => driver_readable (snd kv)) ds).
  { assert (H : Forall (fun kv => exists w, Driver.from_dict (snd kv) = inr w)
                       ds) by (apply Hds; eauto).
    eapply Forall_impl; [|exact H]. intros kv. apply driver_from_dict_ok. }
  destruct (d_races x) as [rs|]; cbn [bind].
  2:{ split; [discriminate | intros (? & ? & _ & ? & _); discriminate]. }
  pose proof (races_from_ok clock rs 0) as Hrs.
  destruct (races_from clock 0 rs) as [e|new_races]; cbn [raises].
  - split; [discriminate|]. intros (ds' & rs' & _ & [= <-] & _ & Hall).
    apply Hrs in Hall. destruct Hall; discriminate.
  - split; [|reflexivity]. intros _. exists ds, rs.
    repeat split; try assumption. apply Hrs. eauto.
Qed.

(** X17. An import that raises leaves the race log, the counter and the
    divisions as they were.  It leaves the whole manager as it was when the
    drivers table is missing or holds a driver without name or division;
    otherwise the table has already been replaced by the imported one. *)
Theorem from_dict_failure clock st x st' e :
  from_dict clock st x = Raised st' e ->
  races st' = races st
  /\ race_counter st' = race_counter st
  /\ divisions st' = divisions st
  /\ ((st' = st
       /\ (d_drivers x = None
           \/ exists ds, d_drivers x = Some ds
                         /\ ~ Forall (fun kv => driver_readable (snd kv)) ds))
      \/ (exists ds, d_drivers x = Some ds
                     /\ PyDict.comprehension_r Driver.from_dict ds PyDict.empty
                        = inr (drivers st')
                     /\ (d_races x = None
                         \/ exists rs, d_races x = Some rs
                                       /\ ~ Forall race_constructible rs))).
Proof.
  unfold from_dict, subscript.
  destruct (d_drivers x) as [ds|]; cbn [bind].
  2:{ intros [= <- _]. repeat split.
      left. split; [reflexivity | left; reflexivity]. }
  destruct (PyDict.comprehension_r Driver.from_dict ds PyDict.empty)
    as [e0|new_drivers] eqn:Ec.
  { pose proof (comprehension_r_ok Driver.from_dict ds PyDict.empty) as Hds.
    intros [= <- _]. repeat split. left. split; [reflexivity|]. right.
    exists ds. split; [reflexivity|]. intros Hall.
    assert (H : exists out : PyDict.t Driver.t,
                  PyDict.comprehension_r Driver.from_dict ds PyDict.empty
                  = inr out).
    { apply Hds. eapply Forall_impl; [|exact Hall].
      intros kv. apply driver_from_dict_ok. }
    destruct H as [out H]. congruence. }
  destruct (d_races x) as [rs|]; cbn [bind].
  2:{ intros [= <- _]. repeat split. right. exists ds.
      split; [reflexivity|]. split; [exact Ec | left; reflexivity]. }
  destruct (races_from clock 0 rs) as [e0|new_races] eqn:Er; [|discriminate].
  pose proof (races_from_ok clock rs 0) as Hrs.
  intros [= <- _]. repeat split. right. exists ds.
  split; [reflexivity|]. split; [exact Ec|]. right. exists rs.
  split; [reflexivity|]. intros Hall. apply Hrs in Hall.
  destruct Hall as [out H]. congruence.
Qed.

End ImportOutcome.

Section ImportExamples.
Import TournamentManager.

(** The snapshot with missing optional keys is accepted. *)
Lemma from_dict_accepts_iff_witness :
  raises (from_dict Sample.at_noon init Sample.sparse_snapshot) = false.
Proof.
  apply (proj2 (from_dict_accepts_iff Sample.at_noon init
                  Sample.sparse_snapshot)).
  do 2 eexists. split; [reflexivity|]. split; [reflexivity|].
  split; repeat constructor; simpl; discriminate.
Defined.

(** Importing a snapshot without races into the tournament of Alice and Bob
    fails, keeps the three races and the counter, and has already replaced
    the two drivers by Dan. *)
Lemma from_dict_failure_witness :
  let st' := outcome_state
               (from_dict Sample.at_noon Sample.bob_out
                  races_missing_snapshot) in
  races st' = races Sample.bob_out
  /\ race_counter st' = race_counter Sample.bob_out.
Proof.
  intros st'.
  destruct (from_dict_failure Sample.at_noon Sample.bob_out
              races_missing_snapshot st' (KeyError "races")
              ltac:(vm_compute; reflexivity))
    as (Hr & Hc & _).
  split; [exact Hr | exact Hc].
Defined.

Example failed_import_replaces_table :
  PyDict.keys (drivers (outcome_state
                 (from_dict Sample.at_noon Sample.bob_out
                    races_missing_snapshot)))
  = ["Dan"].
Proof. vm_compute. reflexivity. Qed.

End ImportExamples.

(** ** Import, then export *)

Section ImportExport.
Import TournamentManager.

Lemma complete_driver_back x d :
  complete_driver x -> Driver.from_dict x = inr d -> Driver.to_dict d = x.
Proof.
  destruct x as [n dv w l rs s].
  unfold complete_driver, driver_readable, Driver.from_dict. simpl.
  intros ((Hn & Hdv) & Hw & Hl & Hrs & Hs).
  destruct n, dv, w, l, rs as [rs|], s; try congruence. simpl.
  intros [= <-]. unfold Driver.to_dict, Driver.init. simpl.
  destruct rs; reflexivity.
Qed.

Lemma complete_race_back now x r :
  complete_race x -> Race.from_kwargs now x = inr r -> Race.to_dict r = x.
Proof.
  destruct x as [n a b w dv ts d3 ty extra].
  unfold complete_race, race_constructible, Race.from_kwargs. simpl.
  intros ((He & Hn & Ha & Hb & Hw & Hdv) & (t & Hts & Ht) & Hty).
  subst extra ts.
  destruct n, a, b, w, dv, ty; try congruence. simpl.
  intros [= <-]. unfold Race.to_dict, Race.init, Race.truthy. simpl.
  destruct (String.eqb_spec t ""); [contradiction | reflexivity].
Qed.

Lemma races_from_back clock l : forall i rs,
  Forall complete_race l ->
  races_from clock i l = inr rs -> map Race.to_dict rs = l.
Proof.
  induction l as [|x rest IH]; intros i rs Hall; simpl.
  - now intros [= <-].
  - inversion Hall as [|? ? Hx Hrest]; subst.
    destruct (Race.from_kwargs (clock i) x) as [e|r] eqn:E; simpl;
      [discriminate|].
    destruct (races_from clock (S i) rest) as [e|rs'] eqn:E'; simpl;
      [discriminate|].
    intros [= <-]. simpl.
    rewrite (complete_race_back _ _ _ Hx E), (IH _ _ Hrest E').
    reflexivity.
Qed.

Lemma entries_back (ds : PyDict.t Driver.data) :
  forall built : PyDict.t Driver.t,
    Forall (fun kv => complete_driver (snd kv)) ds ->
    Forall2 (fun kv kw => fst kw = fst kv
                          /\ Driver.from_dict (snd kv) = inr (snd kw))
            ds built ->
    map (on_values Driver.to_dict) built = ds.
Proof.
  induction ds as [|[k x] rest IH]; intros built Hall HF;
    inversion HF as [|? [k' d] ? ? [Hk Hd] HF']; subst; [reflexivity|].
  inversion Hall as [|? ? Hx Hrest]; subst.
  simpl in *. subst k'. unfold on_values at 1. simpl.
  rewrite (complete_driver_back _ _ Hx Hd), (IH _ Hrest HF'). reflexivity.
Qed.

(** X18. A snapshot in which every key is present, no driver key is
    repeated and every timestamp is non-empty is accepted by [from_dict],
    and exporting the manager right after gives the same snapshot back. *)
Theorem import_then_export clock st x :
  complete x ->
  exists st', from_dict clock st x = Returned st' tt /\ to_dict st' = x.
Proof.
  intros (ds & rs & n & -> & Hnd & Hds & Hrs).
  unfold from_dict. cbn [d_drivers d_races d_race_counter subscript bind].
  assert (Hok : exists new, PyDict.comprehension_r Driver.from_dict ds
                              PyDict.empty = inr new).
  { apply comprehension_r_ok. eapply Forall_impl; [|exact Hds].
    intros kv (Hr & _). now apply driver_from_dict_ok. }
  destruct Hok as [new Hnew]. rewrite Hnew.
  assert (Hok : exists rs', races_from clock 0 rs = inr rs').
  { apply races_from_ok. eapply Forall_impl; [|exact Hrs].
    intros r (Hr & _). exact Hr. }
  destruct Hok as [rs' Hrs']. rewrite Hrs'.
  eexists. split; [reflexivity|].
  unfold to_dict. cbn [drivers races race_counter get_default].
  destruct (comprehension_r_entries Driver.from_dict ds PyDict.empty new
              Hnd Hnew) as (built & -> & HF).
  cbn [app PyDict.empty].
  assert (Hback : map (on_values Driver.to_dict) built = ds)
    by now apply entries_back.
  assert (Hkeys : NoDup (PyDict.keys built)).
  { rewrite <- (keys_on_values Driver.to_dict), Hback. exact Hnd. }
  rewrite (comprehension_map Driver.to_dict built Hkeys), Hback.
  rewrite (races_from_back clock rs 0 rs' Hrs Hrs').
  reflexivity.
Qed.

Lemma import_then_export_witness :
  exists st', from_dict Sample.at_noon init first_race_snapshot
              = Returned st' tt
              /\ to_dict st' = first_race_snapshot.
Proof.
  apply import_then_export.
  do 3 eexists. split; [reflexivity|]. split; [|split].
  - vm_compute. repeat constructor; simpl; intuition discriminate.
  - repeat constructor; simpl; discriminate.
  - repeat constructor; simpl; try discriminate.
    eexists. split; [reflexivity | discriminate].
Defined.

End ImportExport.

(** ** Once eliminated, once entered *)

Section Finality.
Import TournamentManager.

Lemma record_race_grown now st d1 d2 w d3 ty :
  all_grown (drivers st)
    (drivers (outcome_state (record_race now st d1 d2 w d3 ty))).
Proof.
  destruct (record_race_verdict now st d1 d2 w d3 ty)
    as [(msg & _ & ->)|(a & b & _ & _ & _ & ->)]; [apply all_grown_refl|].
  unfold recorded. generalize (racing_drivers d1 d2 d3) as names.
  intros names.
  pose proof (apply_result_grown (logged now st d1 d2 w d3 ty a) w
                (race_counter st + 1) true) as G1.
  destruct (apply_result _ w _ true) as [st2 []|st2 e];
    cbn [outcome_state] in *; [|exact G1].
  pose proof (record_losers_grown names st2 w) as G2.
  destruct (record_losers st2 w names) as [st3 []|st3 e];
    cbn [outcome_state] in *; exact (all_grown_trans _ _ _ G1 G2).
Qed.

Lemma run_grown calls : forall st,
  all_grown (drivers st) (drivers (fst (run st calls))).
Proof.
  induction calls as [|c rest IH]; intros st; [apply all_grown_refl|].
  cbn [run].
  specialize (IH (outcome_state (call st c))).
  destruct (run (outcome_state (call st c)) rest) as [final done].
  cbn [fst] in *.
  eapply all_grown_trans; [|exact IH]. unfold call. apply record_race_grown.
Qed.

(** X19. Elimination is final: a driver with three or more losses still has
    three or more after any series of [record_race] calls, and every later
    race that names the driver first or second is refused and changes
    nothing. *)
Theorem elimination_is_final st calls k d :
  PyDict.get k (drivers st) = Some d ->
  3 <= Driver.losses d ->
  let st' := fst (run st calls) in
  (exists d', PyDict.get k (drivers st') = Some d' /\ 3 <= Driver.losses d')
  /\ (forall now other w d3 ty,
         (exists msg, record_race now st' k other w d3 ty
                      = Returned st' (false, msg))
         /\ (exists msg, record_race now st' other k w d3 ty
                         = Returned st' (false, msg))).
Proof.
  intros Hget Hl. cbv zeta.
  destruct (run_grown calls st k d Hget) as (d' & Hget' & G).
  assert (Hl' : 3 <= Driver.losses d')
    by (destruct G as (_ & _ & _ & H & _); lia).
  split; [eauto|].
  intros now other w d3 ty. split.
  - destruct (record_race_verdict now (fst (run st calls)) k other w d3 ty)
      as [(msg & _ & E)|(a & b & Hv & Ha & _)]; [eauto|].
    exfalso. inversion Hv as [| | | |a' b' Ha' _ _ _ Hla _].
    assert (a' = d') by congruence. subst. lia.
  - destruct (record_race_verdict now (fst (run st calls)) other k w d3 ty)
      as [(msg & _ & E)|(a & b & Hv & _ & Hb & _)]; [eauto|].
    exfalso. inversion Hv as [| | | |a' b' _ Hb' _ _ _ Hlb].
    assert (b' = d') by congruence. subst. lia.
Qed.

(** Bob, out after three defeats, is refused as first driver too. *)
Lemma elimination_is_final_witness :
  exists msg,
    record_race Sample.noon Sample.bob_out "Bob" "Alice" "Bob" None "regular"
    = Returned Sample.bob_out (false, msg).
Proof.
  destruct (elimination_is_final Sample.bob_out [] "Bob"
              (Driver.mk "Bob" "OPEN" 0 3 [1; 2; 3] DriverStatus.ELIMINATED)
              ltac:(vm_compute; reflexivity) ltac:(simpl; lia))
    as [_ H].
  exact (proj1 (H Sample.noon "Alice" "Bob" None "regular")).
Defined.

(** X20. A name is entered once: after [add_driver] has accepted a name,
    it refuses every name with the same trimmed form, whatever the division,
    and changes nothing. *)
Theorem add_driver_twice st name division name' division' :
  fst (snd (add_driver st name division)) = true ->
  strip name' = strip name ->
  let st1 := fst (add_driver st name division) in
  add_driver st1 name' division'
  = (st1, (false, "Driver '" ++ strip name
                  ++ "' already exists or is empty")%string).
Proof.
  intros Hok Hsame. cbv zeta.
  assert (Hin : PyDict.contains (strip name)
                  (drivers (fst (add_driver st name division))) = true).
  { revert Hok. unfold add_driver.
    destruct (String.eqb (strip name) ""); cbn [orb fst snd];
      [discriminate|].
    destruct (PyDict.contains (strip name) (drivers st)); cbn [fst snd];
      [discriminate|].
    destruct (mem division (divisions st)); cbn [negb fst snd];
      [|discriminate].
    intros _. cbn [with_drivers drivers].
    rewrite contains_set, String.eqb_refl. reflexivity. }
  unfold add_driver at 1. rewrite Hsame, Hin, orb_true_r. reflexivity.
Qed.

Lemma add_driver_twice_witness :
  fst (snd (add_driver (fst (add_driver Sample.two_drivers "Carol" "DAMES"))
                       " Carol  " "OPEN"))
  = false.
Proof.
  rewrite (add_driver_twice Sample.two_drivers "Carol" "DAMES" " Carol  "
             "OPEN" ltac:(vm_compute; reflexivity)
             ltac:(vm_compute; reflexivity)).
  reflexivity.
Defined.

End Finality.
